(** * RomanAI Spacetime Engine v3.0: state vector, layered memory, turn engine

    A shallow embedding of [src/RomanAI_Spacetime_Engine_v3.0.py] and the
    properties its specification states about it.

    Modelling conventions.
    - A Python [float] is an exact rational ([Q]): every finite binary64
      value is one, and rounding is not modelled.  Equality of scalars is
      [==] ([Qeq]).  [math.cos] and [math.sin] belong to libm and are taken
      as parameters.
    - A Python [str] is a list of characters ([str := list ascii]); the
      character type is 8 bits wide, [len] is [length], and [lower] and
      [strip] act as Python does on the first 256 code points.  The two
      dashes in the prompt templates lie outside that range and stand in
      the literals as their UTF-8 bytes; no property depends on them.
    - Objects mutated in place become explicit state passing; the turn
      engine runs in a small state-and-exception monad.
    - An exception is a value of [Exn]; only [Exception] instances are
      modelled (the code catches [Exception], so [KeyboardInterrupt] and
      the like are outside the model).
    - What [json.loads] returns is a value of [value]: the attributes of
      a [MemoryItem] hold such values, of whatever type the log line gave
      them, since the dataclass constructor checks none. *)

From Stdlib Require Import String Ascii DecimalString List ZArith QArith Qround Bool Lia Lqa.
Import ListNotations.
Open Scope Q_scope.

(** ** Python values *)

Definition str := list ascii.

Definition lit (s : string) : str := list_ascii_of_string s.

Fixpoint str_eqb (a b : str) : bool :=
  match a, b with
  | [], [] => true
  | c :: a', d :: b' => Ascii.eqb c d && str_eqb a' b'
  | _, _ => false
  end.

(** [a < b] on floats. *)
Definition Qltb (a b : Q) : bool := negb (Qle_bool b a).

(** [min(a, b)]: the builtin keeps its first argument unless the second is
    strictly smaller. *)
Definition py_min (a b : Q) : Q := if Qltb b a then b else a.

(** [max(a, b)]: the builtin keeps its first argument unless the second is
    strictly larger. *)
Definition py_max (a b : Q) : Q := if Qltb a b then b else a.

(** ** 4D spacetime state *)

Module SpacetimeState.

Record t := mk {
  w : Q;          (* Logic *)
  x : Q;          (* Empathy *)
  y : Q;          (* Creativity *)
  z : Q;          (* Memory *)
  energy : Q;
  coherence : Q
}.

(** The dataclass defaults. *)
Definition default : t := mk 0.55 0.55 0.60 0.62 0.85 0.80.

(** The six data attributes of the dataclass. *)
Inductive field := W | X | Y | Z | Energy | Coherence.

Definition field_of_name (a : str) : option field :=
  if str_eqb a (lit "w") then Some W
  else if str_eqb a (lit "x") then Some X
  else if str_eqb a (lit "y") then Some Y
  else if str_eqb a (lit "z") then Some Z
  else if str_eqb a (lit "energy") then Some Energy
  else if str_eqb a (lit "coherence") then Some Coherence
  else None.

Definition get (f : field) (self : t) : Q :=
  match f with
  | W => w self | X => x self | Y => y self | Z => z self
  | Energy => energy self | Coherence => coherence self
  end.

Definition set (f : field) (v : Q) (self : t) : t :=
  match f with
  | W => mk v (x self) (y self) (z self) (energy self) (coherence self)
  | X => mk (w self) v (y self) (z self) (energy self) (coherence self)
  | Y => mk (w self) (x self) v (z self) (energy self) (coherence self)
  | Z => mk (w self) (x self) (y self) v (energy self) (coherence self)
  | Energy => mk (w self) (x self) (y self) (z self) v (coherence self)
  | Coherence => mk (w self) (x self) (y self) (z self) (energy self) v
  end.

(** [getattr(self, a)] as a number: any name other than the six data
    attributes either is missing ([AttributeError]) or is a method or
    dunder object on which the arithmetic of [rotate_plane] raises
    [TypeError]; both are [None] here. *)
Definition getattr (self : t) (a : str) : option Q :=
  option_map (fun f => get f self) (field_of_name a).

Definition as_vector (self : t) : list Q :=
  [w self; x self; y self; z self].

(** [clamp]: the loop over the six attribute names. *)
Definition clamp (self : t) : t :=
  fold_left
    (fun s attr => let v := get attr s in set attr (py_max 0.0 (py_min 1.0 v)) s)
    [W; X; Y; Z; Energy; Coherence] self.

(** [soften]: relaxation toward the neutral state; no clamp follows. *)
Definition soften (factor : Q) (self : t) : t :=
  let s1 :=
    fold_left
      (fun s '(attr, neutral) =>
         let v := get attr s in set attr (v + (neutral - v) * factor) s)
      [(W, 0.55); (X, 0.55); (Y, 0.60); (Z, 0.62)] self in
  set Coherence (coherence s1 + (0.85 - coherence s1) * factor) s1.

Section Rotation.
Variables math_cos math_sin : Q -> Q.

(** [rotate_plane]: both reads precede both writes, so a bad name
    raises before the state is touched ([None]). *)
Definition rotate_plane (a b : str) (theta : Q) (self : t) : option t :=
  let cos_t := math_cos theta in
  let sin_t := math_sin theta in
  match field_of_name a, field_of_name b with
  | Some fa, Some fb =>
      let va := get fa self in
      let vb := get fb self in
      let s1 := set fa (va * cos_t - vb * sin_t) self in
      let s2 := set fb (va * sin_t + vb * cos_t) s1 in
      Some (clamp s2)
  | _, _ => None
  end.

(** One call on a state object, as a caller issues it. *)
Inductive call :=
| Relax (factor : Q)
| RotatePlane (a b : str) (theta : Q).

(** The state after a call; a call that raises leaves the object as
    it was. *)
Definition after (c : call) (self : t) : t :=
  match c with
  | Relax factor => soften factor self
  | RotatePlane a b theta =>
      match rotate_plane a b theta self with
      | Some s => s
      | None => self
      end
  end.

(** The states observed after each call of a sequence. *)
Fixpoint history (self : t) (calls : list call) : list t :=
  match calls with
  | [] => []
  | c :: rest => let s := after c self in s :: history s rest
  end.
End Rotation.

Definition unit_interval (v : Q) : Prop := 0 <= v /\ v <= 1.

(** All six scalars lie in [0,1]. *)
Definition in_range (self : t) : Prop :=
  forall f, unit_interval (get f self).

(** A relaxation whose factor is a proportion; rotations are free. *)
Definition gentle (c : call) : Prop :=
  match c with
  | Relax factor => 0 <= factor /\ factor <= 1
  | RotatePlane _ _ _ => True
  end.

(** The neutral value [soften] pulls an attribute toward, if any. *)
Definition neutral (f : field) : option Q :=
  match f with
  | W => Some 0.55 | X => Some 0.55 | Y => Some 0.60 | Z => Some 0.62
  | Coherence => Some 0.85 | Energy => None
  end.

End SpacetimeState.

(** ** String builtins *)

Definition nl : ascii := "010"%char.
Definition cr : ascii := "013"%char.
Definition dquote : ascii := "034"%char.

Fixpoint starts_with (prefix s : str) : bool :=
  match prefix, s with
  | [], _ => true
  | c :: p', d :: s' => Ascii.eqb c d && starts_with p' s'
  | _ :: _, [] => false
  end.

(** [s.find(sub)]: the index of the first occurrence. *)
Fixpoint find (sub s : str) : option nat :=
  if starts_with sub s then Some 0%nat
  else match s with
       | [] => None
       | _ :: s' => option_map S (find sub s')
       end.

(** [sub in s]. *)
Definition contains (sub s : str) : bool :=
  match find sub s with Some _ => true | None => false end.

(** [s.index(sub)]; the callers test [sub in s] first, and the value used
    when the test fails is never read. *)
Definition index (sub s : str) : nat :=
  match find sub s with Some i => i | None => 0%nat end.

Fixpoint drop_while (p : ascii -> bool) (s : str) : str :=
  match s with
  | [] => []
  | c :: s' => if p c then drop_while p s' else s
  end.

Definition strip_by (p : ascii -> bool) (s : str) : str :=
  rev (drop_while p (rev (drop_while p s))).

(** The characters [str.isspace] accepts among the first 256 code points. *)
Definition is_space (c : ascii) : bool :=
  let n := nat_of_ascii c in
  ((9 <=? n) && (n <=? 13) || (28 <=? n) && (n <=? 32)
   || (n =? 133) || (n =? 160))%nat.

(** [s.strip()]. *)
Definition strip (s : str) : str := strip_by is_space s.

(** [s.strip(chars)]. *)
Definition strip_chars (chars s : str) : str :=
  strip_by (fun c => existsb (Ascii.eqb c) chars) s.

Definition lower_char (c : ascii) : ascii :=
  let n := nat_of_ascii c in
  if ((65 <=? n) && (n <=? 90) || (192 <=? n) && (n <=? 222) && negb (n =? 215))%nat
  then ascii_of_nat (n + 32) else c.

(** [s.lower()]. *)
Definition lower (s : str) : str := map lower_char s.

(** [sep.join(parts)]. *)
Fixpoint join (sep : str) (parts : list str) : str :=
  match parts with
  | [] => []
  | [p] => p
  | p :: rest => p ++ sep ++ join sep rest
  end.

(** [s[i:]] for a Python integer [i]: a negative index counts from the end
    and is clipped at the start of the string; [-0] is [0]. *)
Definition slice_from (i : Z) (s : str) : str :=
  if (i <? 0)%Z
  then skipn (Z.to_nat (Z.of_nat (length s) + i)) s
  else skipn (Z.to_nat i) s.

(** [any(k in text for k in keys)]. *)
Definition any_in (keys : list str) (text : str) : bool :=
  existsb (fun k => contains k text) keys.

(** [str(n)] for a non-negative integer. *)
Definition str_of_nat (n : nat) : str :=
  lit (NilEmpty.string_of_uint (Nat.to_uint n)).

(** ** The world outside the process *)

Inductive Exn := Exception (what : str).

Definition result (A : Type) : Type := (Exn + A)%type.

(** One chat message, [{"role": ..., "content": ...}]. *)
Record Message := msg { msg_role : str; msg_content : str }.

(** The places where [generate_reply] calls the injected function. *)
Inductive call_site := Council | Draft | SelfEval | Summary.

(** The file [memory.jsonl]: its text when it exists, whether opening it
    for reading or for appending succeeds, and whether reading it through
    fails.  The text layer decodes the file piece by piece while the loop
    runs, so bytes that are not UTF-8 (or a failing device) make the line
    iterator raise in the middle of the file: [fault = Some n] says that
    it raises after it has delivered [n] lines.  Such bytes stay where
    they are when the file is appended to. *)
Record Disk := Build_Disk {
  log : option str;
  readable : bool;
  writable : bool;
  fault : option nat
}.

(** A file that reads through to its end. *)
Definition mkDisk (log : option str) (readable writable : bool) : Disk :=
  Build_Disk log readable writable None.

(** [disk]: the log file; [tick]: how many times the clock or the random
    generator has been consulted; [calls]: the calls the injected
    generation function has received so far, with where each came from and
    what it answered (a record kept for the statements, in call order). *)
Record World := mkWorld {
  disk : Disk;
  tick : nat;
  calls : list (call_site * list Message * result str)
}.

(** [open("r")]: the text the file object stands on, or the exception of
    a file that is missing or may not be read. *)
Definition fs_open (d : Disk) : result str :=
  match log d with
  | Some text => if readable d then inr text
                 else inl (Exception (lit "PermissionError"))
  | None => inl (Exception (lit "FileNotFoundError"))
  end.

(** [open("a")] followed by one [write]; a missing file is created. *)
Definition fs_append (data : str) (d : Disk) : result Disk :=
  if writable d
  then inr (Build_Disk
              (Some (match log d with Some text => text | None => [] end
                     ++ data))
              (readable d) (writable d) (fault d))
  else inl (Exception (lit "PermissionError")).

Definition is_eol (c : ascii) : bool := Ascii.eqb c nl || Ascii.eqb c cr.

(** A character that does not end a line. *)
Definition inline (c : ascii) : bool := negb (is_eol c).

(** The lines a text-mode file yields, without their terminators.  Python
    opens the file with universal newlines: LF, CR and CRLF each end a
    line.  Every line is stripped and skipped when empty by the reader
    below, so the empty piece between the CR and the LF of a CRLF, and the
    empty piece after a final terminator, are harmless. *)
Fixpoint file_lines (text : str) : list str :=
  match text with
  | [] => [[]]
  | c :: rest =>
      if is_eol c then [] :: file_lines rest
      else match file_lines rest with
           | l :: ls => (c :: l) :: ls
           | [] => [[c]]
           end
  end.

(** [for line in f]: the lines the iterator delivers to the loop body, and
    the exception it ends with when the file does not read through. *)
Definition fs_lines (text : str) (d : Disk) : list str * option Exn :=
  match fault d with
  | None => (file_lines text, None)
  | Some n =>
      (firstn n (file_lines text), Some (Exception (lit "UnicodeDecodeError")))
  end.

(** ** Values read from JSON *)

(** What [json.loads] can return: [None], [bool], [int], [float] (with
    the three values that are no rationals), [str], [list] and [dict].  A
    [dict] is given by its pairs in the order of the text; a key written
    twice has the value written last. *)
#[warnings="-register-all"]
Inductive value :=
| VNone
| VBool (b : bool)
| VInt (n : BinInt.Z)
| VFloat (q : Q)
| VNan
| VInf (negative : bool)
| VStr (s : str)
| VList (l : list value)
| VDict (d : list (str * value)).

(** [d[k]] on the pairs of a [dict]. *)
Fixpoint dict_get (k : str) (d : list (str * value)) : option value :=
  match d with
  | [] => None
  | (k', v) :: rest =>
      match dict_get k rest with
      | Some v' => Some v'
      | None => if str_eqb k' k then Some v else None
      end
  end.

(** [v == s] for a string [s]: a value of another type is not equal to
    it, and the comparison never raises. *)
Definition py_eq_str (v : value) (s : str) : bool :=
  match v with
  | VStr t => str_eqb t s
  | _ => false
  end.

(** [v >= q] for a float [q]: numbers and booleans compare by value, NaN
    is not above anything, and every other type raises [TypeError]. *)
Definition py_ge (v : value) (q : Q) : result bool :=
  match v with
  | VBool b => inr (Qle_bool q (if b then 1 else 0))
  | VInt n => inr (Qle_bool q (inject_Z n))
  | VFloat x => inr (Qle_bool q x)
  | VNan => inr false
  | VInf negative => inr (negb negative)
  | _ => inl (Exception (lit "TypeError"))
  end.

(** ** Memory system *)

(** The dataclass: four attributes, annotated [str], [str], [str] and
    [float]; the annotations are not enforced. *)
Record MemoryItem := Build_MemoryItem {
  ts : value;
  role : value;        (* "user", "assistant", "system", "summary" *)
  content : value;
  importance : value   (* 0-1, used for promotion into long-term *)
}.

(** An item whose attributes have the annotated types. *)
Definition mkItem (ts role content : str) (importance : Q) : MemoryItem :=
  Build_MemoryItem (VStr ts) (VStr role) (VStr content) (VFloat importance).

Definition item_fields : list str :=
  [lit "ts"; lit "role"; lit "content"; lit "importance"].

(** The constructor called on the unpacked [raw]: [raw] has to be a
    mapping whose keys are exactly the four attribute names, or the call
    raises [TypeError]; the values are taken as they are. *)
Definition MemoryItem_of (raw : value) : result MemoryItem :=
  match raw with
  | VDict d =>
      if forallb (fun kv => existsb (str_eqb (fst kv)) item_fields) d
      then
        match dict_get (lit "ts") d, dict_get (lit "role") d,
              dict_get (lit "content") d, dict_get (lit "importance") d with
        | Some t, Some r, Some c, Some i => inr (Build_MemoryItem t r c i)
        | _, _, _, _ => inl (Exception (lit "TypeError"))
        end
      else inl (Exception (lit "TypeError"))
  | _ => inl (Exception (lit "TypeError"))
  end.

(** What the code takes from the Python runtime and its libraries.
    - [math_cos], [math_sin]: libm.
    - [format_2f v]: the text of [f"{v:.2f}"].
    - [utcnow k]: [datetime.utcnow().isoformat()] at the [k]-th tick.
    - [random_sample k population n]: [random.sample(population, k=n)] at
      the [k]-th tick.
    - [json_dumps item]: [json.dumps(asdict(item), ensure_ascii=False)].
    - [json_loads line]: [json.loads(line)], [None] when it raises.
    - [py_str v]: [str(v)] for a value that is not a string, as an
      f-string writes it. *)
Record Env := mkEnv {
  math_cos : Q -> Q;
  math_sin : Q -> Q;
  format_2f : Q -> str;
  utcnow : nat -> str;
  random_sample : nat -> list MemoryItem -> nat -> list MemoryItem;
  json_dumps : MemoryItem -> str;
  json_loads : str -> option value;
  py_str : value -> str
}.

(** [json.loads(line)] followed by the constructor call on the unpacked
    result, [None] when either step raises. *)
Definition json_load_item (env : Env) (line : str) : option MemoryItem :=
  match json_loads env line with
  | Some raw =>
      match MemoryItem_of raw with
      | inr item => Some item
      | inl _ => None
      end
  | None => None
  end.

(** [f"{v}"]: a string is written as it is. *)
Definition format_value (env : Env) (v : value) : str :=
  match v with
  | VStr s => s
  | _ => py_str env v
  end.

(** [collections.deque(maxlen=n)]. *)
Record deque (A : Type) := mkDeque { maxlen : nat; items : list A }.
Arguments mkDeque {A} _ _.
Arguments maxlen {A} _.
Arguments items {A} _.

(** [d.append(x)]: when the deque is full the oldest element falls off. *)
Definition deque_append {A} (d : deque A) (v : A) : deque A :=
  let l := items d ++ [v] in
  mkDeque (maxlen d) (skipn (length l - maxlen d) l).

(** [list(d)[-n:]] for a positive literal [n]. *)
Definition last_n {A} (n : nat) (l : list A) : list A :=
  skipn (length l - n) l.

Module MemoryStore.

Record t := mk {
  short_term : deque MemoryItem;
  mid_term : deque MemoryItem;
  long_term : list MemoryItem
}.

Definition with_short (self : t) d := mk d (mid_term self) (long_term self).
Definition with_mid (self : t) d := mk (short_term self) d (long_term self).
Definition with_long (self : t) l := mk (short_term self) (mid_term self) l.

Section WithEnv.
Variable env : Env.

(** The body of the reading loop for one line of the file. *)
Definition load_line (self : t) (line : str) : t :=
  let line := strip line in
  match line with
  | [] => self
  | _ =>
      match json_load_item env line with
      | Some item =>
          if py_eq_str (role item) (lit "summary")
          then with_mid self (deque_append (mid_term self) item)
          else
            match py_ge (importance item) 0.7 with
            | inr true => with_long self (long_term self ++ [item])
            | inr false =>
                with_short self (deque_append (short_term self) item)
            | inl _ => self    (* the comparison raised: [continue] *)
            end
      | None => self
      end
  end.

(** The loop runs inside the outer [try]: when the iterator raises, the
    items appended so far stay and the rest of the file is not read. *)
Definition _load_from_disk (self : t) (w : World) : t * World :=
  match log (disk w) with
  | None => (self, w)
  | Some _ =>
      match fs_open (disk w) with
      | inr text =>
          (fold_left load_line (fst (fs_lines text (disk w))) self, w)
      | inl _ => (self, w)
      end
  end.

(** [MemoryStore(base_dir, max_short, max_mid)]. *)
Definition init (max_short max_mid : nat) (w : World) : t * World :=
  _load_from_disk (mk (mkDeque max_short []) (mkDeque max_mid []) []) w.

Definition _append_disk (item : MemoryItem) (w : World) : World :=
  match fs_append (json_dumps env item ++ [nl]) (disk w) with
  | inr d => mkWorld d (tick w) (calls w)
  | inl _ => w
  end.

(** The item [add] constructs when the clock shows tick [k]. *)
Definition new_item (k : nat) (role content : str) (importance : Q)
  : MemoryItem :=
  mkItem (utcnow env k) role content (py_max 0.0 (py_min 1.0 importance)).

Definition add (role content : str) (importance : Q) (st : t * World)
  : t * World :=
  let '(self, w) := st in
  let item := new_item (tick w) role content importance in
  let w := mkWorld (disk w) (S (tick w)) (calls w) in
  let self :=
    if str_eqb role (lit "summary")
    then with_mid self (deque_append (mid_term self) item)
    else if Qle_bool 0.7 importance
    then with_long self (long_term self ++ [item])
    else with_short self (deque_append (short_term self) item) in
  (self, _append_disk item w).

Definition promote_summary (text : str) (weight : Q) (st : t * World)
  : t * World :=
  add (lit "summary") text (py_max weight 0.5) st.

(** The joined text of [get_recall_snippet] before truncation. *)
Definition recall_blob (self : t) (w : World) : str :=
  let long_samples :=
    match long_term self with
    | [] => []
    | _ => random_sample env (tick w) (long_term self)
             (Nat.min 4 (length (long_term self)))
    end in
  let parts :=
    map (fun it => lit "[LONG] " ++ format_value env (content it))
      long_samples
    ++ map (fun it => lit "[SUMMARY] " ++ format_value env (content it))
         (last_n 4 (items (mid_term self)))
    ++ map (fun it => lit "[RECENT] " ++ format_value env (role it)
                      ++ lit ": " ++ format_value env (content it))
         (last_n 6 (items (short_term self))) in
  join [nl] parts.

Definition get_recall_snippet (max_chars : Z) (st : t * World)
  : str * World :=
  let '(self, w) := st in
  let blob := recall_blob self w in
  let w :=
    match long_term self with
    | [] => w
    | _ => mkWorld (disk w) (S (tick w)) (calls w)
    end in
  let blob :=
    if (Z.of_nat (length blob) >? max_chars)%Z
    then slice_from (- max_chars) blob
    else blob in
  (strip blob, w).

End WithEnv.
End MemoryStore.

(** ** Reasoning utilities *)

(** The loop of [recursive_refine], from pass [i+1] on. *)
Fixpoint refine_passes (i n : nat) (current : str) : list str :=
  match n with
  | O => []
  | S n' =>
      let current :=
        lit "Refine (pass " ++ str_of_nat (i + 1) ++ lit "): " ++ current in
      current :: refine_passes (S i) n' current
  end.

Definition recursive_refine (thought : str) (depth : nat) : list str :=
  (lit "Initial thought: " ++ thought) :: refine_passes 0 depth thought.

Definition triple_quote : str := [dquote; dquote; dquote].

Definition build_multi_agent_prompt (user_text : str) : str :=
  lit "You are RomanAI's inner council. Four internal voices will think about the user's request:

[1] LOGICIAN: precise, step-by-step reasoning
[2] EMPATH: focuses on feelings, tone, and support
[3] CREATOR: imaginative, lateral ideas, analogies
[4] SKEPTIC: checks for errors, risks, and coherence

User request:
" ++ triple_quote ++ user_text ++ triple_quote ++ lit "

For each voice, briefly outline their perspective in 2–4 bullet points.
Then give a final integrated recommendation as ROMANAI_SUMMARY.
".

Definition build_self_eval_prompt (answer user_text : str) : str :=
  lit "You are RomanAI performing self-evaluation on your own answer.

User request:
" ++ triple_quote ++ user_text ++ triple_quote ++ lit "

Your draft answer:
" ++ triple_quote ++ answer ++ triple_quote ++ lit "

1) Briefly list 2–4 strengths.
2) Briefly list 2–4 weaknesses or missing pieces.
3) Provide an improved final answer as ROMANAI_FINAL, clear and helpful.
".

(** ** Engine *)

Module RomanAISpacetimeEngine.

Record t := mk {
  name : str;
  state : SpacetimeState.t;
  memory : MemoryStore.t;
  enable_recursive : bool;
  enable_multi_agent : bool;
  enable_self_eval : bool;
(* one entry per turn: the user text and the assistant's answer *)
dialog_history : deque (str * str)
  }.

Definition with_state (self : t) s :=
  mk (name self) s (memory self) (enable_recursive self)
     (enable_multi_agent self) (enable_self_eval self) (dialog_history self).
Definition with_memory (self : t) m :=
  mk (name self) (state self) m (enable_recursive self)
     (enable_multi_agent self) (enable_self_eval self) (dialog_history self).
Definition with_history (self : t) h :=
  mk (name self) (state self) (memory self) (enable_recursive self)
     (enable_multi_agent self) (enable_self_eval self) h.

(** The injected generation function: it answers or raises. *)
Definition llm_func := list Message -> result str.

(** *** Computations on an engine object in a world *)

Definition M (A : Type) : Type := t * World -> result A * (t * World).

Definition ret {A} (a : A) : M A := fun st => (inr a, st).

Definition bind {A B} (m : M A) (k : A -> M B) : M B :=
  fun st =>
    match m st with
    | (inr a, st') => k a st'
    | (inl e, st') => (inl e, st')
    end.

(** [try: body except Exception: handler]; what the body changed before
    it raised stays changed. *)
Definition try_except {A} (body handler : M A) : M A :=
  fun st =>
    match body st with
    | (inl _, st') => handler st'
    | ok => ok
    end.

Notation "x <- m ;; k" := (bind m (fun x => k))
  (at level 61, m at next level, right associativity).
Notation "m ;;; k" := (bind m (fun _ => k))
  (at level 61, right associativity).

Definition get_self : M t := fun st => (inr (fst st), st).

Definition modify_self (f : t -> t) : M unit :=
  fun st => (inr tt, (f (fst st), snd st)).

(** A [MemoryStore] method that returns nothing. *)
Definition on_memory
  (f : MemoryStore.t * World -> MemoryStore.t * World) : M unit :=
  fun st =>
    let '(m, w) := f (memory (fst st), snd st) in
    (inr tt, (with_memory (fst st) m, w)).

(** One call of the injected function, recorded in the world. *)
Definition call_llm (site : call_site) (llm : llm_func)
  (messages : list Message) : M str :=
  fun st =>
    let r := llm messages in
    let w := snd st in
    (r, (fst st, mkWorld (disk w) (tick w) (calls w ++ [(site, messages, r)]))).

Section WithEnv.
Variable env : Env.

(** [RomanAISpacetimeEngine(name, memory_dir, ...)]. *)
Definition init (name : str)
  (enable_recursive enable_multi_agent enable_self_eval : bool)
  (w : World) : t * World :=
  let '(m, w) := MemoryStore.init env 32 64 w in
  (mk name SpacetimeState.default m enable_recursive enable_multi_agent
      enable_self_eval (mkDeque 64 []), w).

Definition _update_state_from_interaction (user_text answer : str)
  (self : t) : t :=
  let st := state self in
  let length := inject_Z (Z.of_nat (List.length answer)) in
  let st := SpacetimeState.set SpacetimeState.Energy
              (py_max 0.2 (py_min 1.0 (0.4 + length / 2000.0))) st in
  let st :=
    if contains (lit "sorry") (lower answer)
    then SpacetimeState.set SpacetimeState.Coherence
           (SpacetimeState.coherence st * 0.95) st
    else SpacetimeState.set SpacetimeState.Coherence
           (py_min 1.0 (SpacetimeState.coherence st * 1.03)) st in
  let st :=
    if any_in [lit "sad"; lit "scared"; lit "afraid"; lit "lonely"; lit "hurt"]
         (lower user_text)
    then SpacetimeState.set SpacetimeState.X
           (py_min 1.0 (SpacetimeState.x st + 0.08)) st
    else st in
  let st :=
    if any_in [lit "idea"; lit "story"; lit "creative"; lit "brainstorm"]
         (lower user_text)
    then SpacetimeState.set SpacetimeState.Y
           (py_min 1.0 (SpacetimeState.y st + 0.08)) st
    else st in
(* "w" and "y" are attribute names, so the call cannot raise *)
let st := SpacetimeState.after (math_cos env) (math_sin env)
            (SpacetimeState.RotatePlane (lit "w") (lit "y") 0.02) st in
let st := SpacetimeState.soften 0.02 st in
with_state self st.

Definition _build_state_description (self : t) : str :=
  match SpacetimeState.as_vector (state self) with
  | [w; x; y; z] =>
      lit "4D State — Logic(w): " ++ format_2f env w
      ++ lit ", Empathy(x): " ++ format_2f env x
      ++ lit ", Creativity(y): " ++ format_2f env y
      ++ lit ", Memory(z): " ++ format_2f env z
      ++ lit ", Energy: " ++ format_2f env (SpacetimeState.energy (state self))
      ++ lit ", Coherence: "
      ++ format_2f env (SpacetimeState.coherence (state self))
  | _ => []
  end.

Definition _build_system_prompt : M str :=
  fun st =>
    let self := fst st in
    let '(recall, w) :=
      MemoryStore.get_recall_snippet env 1200 (memory self, snd st) in
    let st_desc := _build_state_description self in
    (inr (lit "
You are " ++ name self ++ lit ", a local RomanAILabs assistant running as a Spacetime Engine v3.0.
You reason in 4D vectors (Logic, Empathy, Creativity, Memory) and you always try
to be honest, grounded, and helpful.

Your current internal state:
" ++ st_desc ++ lit "

You have access to a small memory of prior interactions and facts:

" ++ match recall with [] => lit "[no stored memory yet]" | _ => recall end ++ lit "

GUIDELINES:
- Be concise but not cold; supportive but not fake.
- Use your Logic dimension to structure answers clearly.
- Use your Empathy dimension to respect the user's emotional tone.
- Use your Creativity dimension to offer new angles and ideas when useful.
- Use your Memory dimension to stay consistent with prior facts you recall.
- If you are uncertain, say so and focus on being useful anyway.

You are running locally and NEVER claim external access.
"), (self, w)).

(** [_summarize_recent]: [None] when there is nothing to summarize or
    the model answered with the empty string. *)
Definition _summarize_recent (llm : llm_func) : M (option str) :=
  self <- get_self ;;
  match items (dialog_history self) with
  | [] => ret None
  | _ =>
      let convo_snippet :=
        fold_left
          (fun acc (turn : str * str) =>
             acc ++ lit "User: " ++ fst turn ++ [nl] ++ lit "RomanAI: "
             ++ snd turn ++ [nl; nl])
          (last_n 6 (items (dialog_history self))) [] in
      let prompt :=
        lit "Summarize the following recent conversation between the user and RomanAI.
Keep it under 6 bullet points, focusing on:
- key user preferences
- important facts
- emotional tone
- ongoing projects or goals

Conversation:
" ++ triple_quote ++ convo_snippet ++ triple_quote ++ lit "

Provide only the summary, no extra commentary.
" in
      summary <- call_llm Summary llm
        [msg (lit "system")
           (lit "You are a concise summarizer for RomanAI's memory system.");
         msg (lit "user") prompt] ;;
      ret (match summary with [] => None | _ => Some (strip summary) end)
  end.

(** [generate_reply] is given in four blocks, after the numbered
    comments of the source. *)

(** Steps 1 to 4: base messages, recursive traces, council, draft. *)
Definition draft_step (user_text : str) (llm : llm_func) : M str :=
(* 1) Base messages *)
system_prompt <- _build_system_prompt ;;
self <- get_self ;;
let messages :=
  [msg (lit "system") system_prompt; msg (lit "user") user_text] in
(* 2) Optional recursive reasoning *)
let internal_traces :=
  if enable_recursive self then recursive_refine user_text 2 else [] in
(* 3) Optional multi-agent council *)
internal_traces <-
  (if enable_multi_agent self
   then
     let council_prompt := build_multi_agent_prompt user_text in
     council_answer <- call_llm Council llm
       [msg (lit "system")
          (lit "You are internal-only reasoning. Do NOT talk as the assistant.");
        msg (lit "user") council_prompt] ;;
     ret (internal_traces ++ [lit "[COUNCIL]" ++ [nl] ++ council_answer])
   else ret internal_traces) ;;
(* 4) Draft answer *)
let messages :=
  match internal_traces with
  | [] => messages
  | _ =>
      messages ++
      [msg (lit "system")
         (lit "Here are your internal reasoning notes. They are for YOUR mind only, not to be repeated verbatim:"
          ++ [nl; nl] ++ join [nl; nl] internal_traces)]
  end in
let messages := messages ++ [msg (lit "user") user_text] in
draft <- call_llm Draft llm messages ;;
ret (strip draft).

(** Step 5: optional self-evaluation and refinement. *)
Definition self_eval_step (user_text : str) (llm : llm_func)
  (draft_answer : str) : M str :=
  self <- get_self ;;
  let final_answer := draft_answer in
  if enable_self_eval self
  then
    let eval_prompt := build_self_eval_prompt draft_answer user_text in
    eval_text <- call_llm SelfEval llm
      [msg (lit "system")
         (lit "You are RomanAI performing self-reflection on your own answer.");
       msg (lit "user") eval_prompt] ;;
    let marker := lit "ROMANAI_FINAL" in
    if contains marker eval_text
    then
      let idx := index marker eval_text in
      let improved :=
        strip_chars [" "%char; ":"%char; nl]
          (skipn (idx + List.length marker) eval_text) in
      if (0 <? List.length improved)%nat
      then ret (strip improved)
      else ret final_answer
    else ret final_answer
  else ret final_answer.

(** Step 6: state and memory update. *)
Definition update_step (user_text final_answer : str) : M unit :=
  modify_self (_update_state_from_interaction user_text final_answer) ;;;
  modify_self (fun self =>
    with_history self
      (deque_append (dialog_history self) (user_text, final_answer))) ;;;
  let importance :=
    if any_in [lit "important"; lit "remember"; lit "my name";
               lit "my birthday"; lit "my project"] (lower user_text)
    then 0.8 else 0.4 in
  on_memory (MemoryStore.add env (lit "user") user_text importance) ;;;
  on_memory (MemoryStore.add env (lit "assistant") final_answer
               (importance * 0.8)).

(** The summary hook that closes the turn. *)
Definition summary_hook (llm : llm_func) : M unit :=
  self <- get_self ;;
  if (List.length (items (dialog_history self)) mod 6 =? 0)%nat
  then
    try_except
      (summary <- _summarize_recent llm ;;
       match summary with
       | Some ((_ :: _) as text) =>
           on_memory (MemoryStore.promote_summary env text 0.7)
       | _ => ret tt
       end)
      (ret tt)
  else ret tt.

Definition generate_reply (user_text : str) (llm : llm_func) : M str :=
  draft_answer <- draft_step user_text llm ;;
  final_answer <- self_eval_step user_text llm draft_answer ;;
  update_step user_text final_answer ;;;
  summary_hook llm ;;;
  ret final_answer.

End WithEnv.
End RomanAISpacetimeEngine.

(** ** Demo: a concrete runtime and the fake LLM of the source's demo *)

Module Demo.

(** The placeholder of the [__main__] block: it echoes the last user
    message, and raises [IndexError] when there is none. *)
Definition fake_llm : RomanAISpacetimeEngine.llm_func :=
  fun msgs =>
    match rev (filter (fun m => str_eqb (msg_role m) (lit "user")) msgs) with
    | [] => inl (Exception (lit "IndexError"))
    | m :: _ =>
        inr (lit "(FAKE_LLM) I received your message: "
             ++ firstn 200 (msg_content m) ++ lit " ...")
    end.

Definition backslash : ascii := "092"%char.
Definition squote : ascii := "039"%char.
Definition tab : ascii := "009"%char.
Definition backspace : ascii := "008"%char.
Definition formfeed : ascii := "012"%char.

Definition str_of_Z (n : BinInt.Z) : str :=
  lit (NilEmpty.string_of_int (Z.to_int n)).

Definition hex_digit (n : nat) : ascii :=
  if (n <? 10)%nat then ascii_of_nat (48 + n) else ascii_of_nat (87 + n).

(** The two hexadecimal digits of a character. *)
Definition hex2 (c : ascii) : str :=
  let n := nat_of_ascii c in [hex_digit (n / 16); hex_digit (n mod 16)].

(** *** Writing JSON

    A small [json.dumps] with the default separators and
    [ensure_ascii=False]. *)

Fixpoint escape (s : str) : str :=
  match s with
  | [] => []
  | c :: s' =>
      (if Ascii.eqb c dquote then [backslash; dquote]
       else if Ascii.eqb c backslash then [backslash; backslash]
       else if Ascii.eqb c nl then [backslash; "n"%char]
       else if Ascii.eqb c cr then [backslash; "r"%char]
       else if Ascii.eqb c tab then [backslash; "t"%char]
       else if Ascii.eqb c backspace then [backslash; "b"%char]
       else if Ascii.eqb c formfeed then [backslash; "f"%char]
       else if (nat_of_ascii c <? 32)%nat
       then [backslash; "u"%char; "0"%char; "0"%char] ++ hex2 c
       else [c]) ++ escape s'
  end.

Definition quoted (s : str) : str := [dquote] ++ escape s ++ [dquote].

(** [Some k] when [d] is the [k]-th power of ten. *)
Fixpoint pow10_exp (fuel : nat) (d : BinInt.Z) : option nat :=
  match fuel with
  | O => None
  | S fuel' =>
      if (d =? 1)%Z then Some O
      else if (d mod 10 =? 0)%Z
      then option_map S (pow10_exp fuel' (d / 10)%Z)
      else None
  end.

Fixpoint zeros (n : nat) : str :=
  match n with O => [] | S n' => "0"%char :: zeros n' end.

(** The decimal text of [n / 10^k] with [k] digits after the point, at
    least one. *)
Definition decimal (n : BinInt.Z) (k : nat) : str :=
  let m := Z.abs n in
  let p := (10 ^ Z.of_nat k)%Z in
  let frac := str_of_Z (m mod p) in
  (if (n <? 0)%Z then lit "-" else [])
  ++ str_of_Z (m / p) ++ lit "."
  ++ match k with
     | O => lit "0"
     | _ => zeros (k - length frac) ++ frac
     end.

(** The text of a float: the digits of its decimal literal; a rational
    that is no finite decimal is cut after 17 digits. *)
Definition dump_float (q : Q) : str :=
  match pow10_exp (Pos.to_nat (Pos.size (Qden q))) (Zpos (Qden q)) with
  | Some k => decimal (Qnum q) k
  | None => decimal (Qnum q * 10 ^ 17 / Zpos (Qden q))%Z 17
  end.

Fixpoint dump_value (v : value) : str :=
  match v with
  | VNone => lit "null"
  | VBool true => lit "true"
  | VBool false => lit "false"
  | VInt n => str_of_Z n
  | VFloat q => dump_float q
  | VNan => lit "NaN"
  | VInf false => lit "Infinity"
  | VInf true => lit "-Infinity"
  | VStr s => quoted s
  | VList l => lit "[" ++ join (lit ", ") (map dump_value l) ++ lit "]"
  | VDict d =>
      lit "{"
      ++ join (lit ", ")
           (map (fun '(k, x) => quoted k ++ lit ": " ++ dump_value x) d)
      ++ lit "}"
  end.

(** [json.dumps(asdict(item), ensure_ascii=False)]. *)
Definition dumps (item : MemoryItem) : str :=
  dump_value
    (VDict [(lit "ts", ts item); (lit "role", role item);
            (lit "content", content item);
            (lit "importance", importance item)]).

(** A line that is an object with the four attribute names and no memory
    entry: the values of three attributes are [null]. *)
Definition null_summary_line : str :=
  lit "{" ++ quoted (lit "ts") ++ lit ": null, "
  ++ quoted (lit "role") ++ lit ": " ++ quoted (lit "summary") ++ lit ", "
  ++ quoted (lit "content") ++ lit ": null, "
  ++ quoted (lit "importance") ++ lit ": null}".

(** *** Reading JSON

    A small [json.loads]; an escape for a code point above 255 lies
    outside the character type and is refused. *)

Definition is_json_ws (c : ascii) : bool :=
  Ascii.eqb c " "%char || Ascii.eqb c tab || Ascii.eqb c nl || Ascii.eqb c cr.

Definition skip_ws (s : str) : str := drop_while is_json_ws s.

Definition expect (p s : str) : option str :=
  if starts_with p s then Some (skipn (List.length p) s) else None.

Definition digit (c : ascii) : option BinInt.Z :=
  let n := nat_of_ascii c in
  if ((48 <=? n) && (n <=? 57))%nat then Some (Z.of_nat (n - 48)) else None.

Definition hex_value (c : ascii) : option nat :=
  let n := nat_of_ascii c in
  if ((48 <=? n) && (n <=? 57))%nat then Some (n - 48)%nat
  else if ((97 <=? n) && (n <=? 102))%nat then Some (n - 87)%nat
  else if ((65 <=? n) && (n <=? 70))%nat then Some (n - 55)%nat
  else None.

(** The body of a string up to its closing quote. *)
Fixpoint read_string (s : str) : option (str * str) :=
  match s with
  | [] => None
  | c :: s' =>
      if Ascii.eqb c dquote then Some ([], s')
      else if Ascii.eqb c backslash then
        match s' with
        | d :: s'' =>
            if Ascii.eqb d "u"%char then
              match s'' with
              | h1 :: h2 :: h3 :: h4 :: s5 =>
                  match hex_value h1, hex_value h2, hex_value h3,
                        hex_value h4 with
                  | Some O, Some O, Some a, Some b =>
                      option_map
                        (fun '(body, rest) =>
                           (ascii_of_nat (16 * a + b) :: body, rest))
                        (read_string s5)
                  | _, _, _, _ => None
                  end
              | _ => None
              end
            else
              match
                (if Ascii.eqb d dquote then Some dquote
                 else if Ascii.eqb d backslash then Some backslash
                 else if Ascii.eqb d "/"%char then Some "/"%char
                 else if Ascii.eqb d "n"%char then Some nl
                 else if Ascii.eqb d "r"%char then Some cr
                 else if Ascii.eqb d "t"%char then Some tab
                 else if Ascii.eqb d "b"%char then Some backspace
                 else if Ascii.eqb d "f"%char then Some formfeed
                 else None)
              with
              | Some e =>
                  option_map (fun '(body, rest) => (e :: body, rest))
                    (read_string s'')
              | None => None
              end
        | [] => None
        end
      else if (nat_of_ascii c <? 32)%nat then None
      else option_map (fun '(body, rest) => (c :: body, rest)) (read_string s')
  end.

(** The digits at the head of a text: their value, how many there are,
    and the rest. *)
Fixpoint read_digits (acc : BinInt.Z) (n : nat) (s : str)
  : BinInt.Z * nat * str :=
  match s with
  | c :: s' =>
      match digit c with
      | Some d => read_digits (10 * acc + d)%Z (S n) s'
      | None => (acc, n, s)
      end
  | [] => (acc, n, s)
  end.

(** The integer part of a number: a lone zero, or digits that start with
    another digit. *)
Definition read_int_part (s : str) : option (BinInt.Z * str) :=
  match s with
  | c :: s' =>
      if Ascii.eqb c "0"%char then Some (0%Z, s')
      else match digit c with
           | Some _ => let '(n, _, r) := read_digits 0%Z 0 s in Some (n, r)
           | None => None
           end
  | [] => None
  end.

(** A fraction, when a point and a digit follow. *)
Definition read_frac (s : str) : option (BinInt.Z * nat * str) :=
  match s with
  | c :: ((d :: _) as s') =>
      if Ascii.eqb c "."%char
      then match digit d with
           | Some _ => Some (read_digits 0%Z 0 s')
           | None => None
           end
      else None
  | _ => None
  end.

(** An exponent, when the letter and its digits follow. *)
Definition read_exp (s : str) : option (BinInt.Z * str) :=
  match s with
  | c :: s' =>
      if Ascii.eqb c "e"%char || Ascii.eqb c "E"%char
      then
        let '(negative, s1) :=
          match s' with
          | g :: s'' =>
              if Ascii.eqb g "-"%char then (true, s'')
              else if Ascii.eqb g "+"%char then (false, s'')
              else (false, s')
          | [] => (false, s')
          end in
        match s1 with
        | d :: _ =>
            match digit d with
            | Some _ =>
                let '(e, _, r) := read_digits 0%Z 0 s1 in
                Some ((if negative then - e else e)%Z, r)
            | None => None
            end
        | [] => None
        end
      else None
  | [] => None
  end.

(** A number after its sign: an [int] when it has neither fraction nor
    exponent, a [float] otherwise. *)
Definition read_number (negative : bool) (s : str) : option (value * str) :=
  match read_int_part s with
  | None => None
  | Some (n, r) =>
      let sign (z : BinInt.Z) := (if negative then - z else z)%Z in
      match read_frac r, read_exp r with
      | None, None => Some (VInt (sign n), r)
      | None, Some (e, r') =>
          Some (VFloat (inject_Z (sign n) * Qpower 10 e), r')
      | Some (f, k, r1), _ =>
          let p := (10 ^ Z.of_nat k)%Z in
          let q := Qmake (sign (n * p + f)%Z) (Z.to_pos p) in
          match read_exp r1 with
          | None => Some (VFloat q, r1)
          | Some (e, r') => Some (VFloat (q * Qpower 10 e), r')
          end
      end
  end.

Fixpoint read_value (fuel : nat) (s : str) : option (value * str) :=
  match fuel with
  | O => None
  | S fuel' =>
      match s with
      | [] => None
      | c :: s' =>
          if Ascii.eqb c dquote
          then option_map (fun '(body, rest) => (VStr body, rest))
                 (read_string s')
          else if Ascii.eqb c "{"%char
          then
            match skip_ws s' with
            | d :: r =>
                if Ascii.eqb d "}"%char then Some (VDict [], r)
                else option_map (fun '(l, rest) => (VDict l, rest))
                       (read_members fuel' (d :: r))
            | [] => None
            end
          else if Ascii.eqb c "["%char
          then
            match skip_ws s' with
            | d :: r =>
                if Ascii.eqb d "]"%char then Some (VList [], r)
                else option_map (fun '(l, rest) => (VList l, rest))
                       (read_elements fuel' (d :: r))
            | [] => None
            end
          else if starts_with (lit "null") s
          then Some (VNone, skipn 4 s)
          else if starts_with (lit "true") s
          then Some (VBool true, skipn 4 s)
          else if starts_with (lit "false") s
          then Some (VBool false, skipn 5 s)
          else if starts_with (lit "NaN") s
          then Some (VNan, skipn 3 s)
          else if starts_with (lit "Infinity") s
          then Some (VInf false, skipn 8 s)
          else if starts_with (lit "-Infinity") s
          then Some (VInf true, skipn 9 s)
          else if Ascii.eqb c "-"%char then read_number true s'
          else read_number false s
      end
  end

(** The elements of an array, from the first one to the closing
    bracket. *)
with read_elements (fuel : nat) (s : str) : option (list value * str) :=
  match fuel with
  | O => None
  | S fuel' =>
      match read_value fuel' s with
      | None => None
      | Some (v, r) =>
          match skip_ws r with
          | c :: r' =>
              if Ascii.eqb c ","%char
              then option_map (fun '(l, rest) => (v :: l, rest))
                     (read_elements fuel' (skip_ws r'))
              else if Ascii.eqb c "]"%char then Some ([v], r')
              else None
          | [] => None
          end
      end
  end

(** The members of an object, from the first key to the closing brace. *)
with read_members (fuel : nat) (s : str)
  : option (list (str * value) * str) :=
  match fuel with
  | O => None
  | S fuel' =>
      match s with
      | c :: s' =>
          if Ascii.eqb c dquote
          then
            match read_string s' with
            | None => None
            | Some (k, r) =>
                match skip_ws r with
                | d :: r1 =>
                    if Ascii.eqb d ":"%char
                    then
                      match read_value fuel' (skip_ws r1) with
                      | None => None
                      | Some (v, r2) =>
                          match skip_ws r2 with
                          | e :: r3 =>
                              if Ascii.eqb e ","%char
                              then option_map
                                     (fun '(l, rest) => ((k, v) :: l, rest))
                                     (read_members fuel' (skip_ws r3))
                              else if Ascii.eqb e "}"%char
                              then Some ([(k, v)], r3)
                              else None
                          | [] => None
                          end
                      end
                    else None
                | [] => None
                end
            end
          else None
      | [] => None
      end
  end.

(** [json.loads(line)]: one value, white space around it, nothing else. *)
Definition loads (line : str) : option value :=
  match read_value (2 * List.length line + 2) (skip_ws line) with
  | Some (v, rest) =>
      match skip_ws rest with
      | [] => Some v
      | _ => None
      end
  | None => None
  end.

(** *** [str] of a value *)

(** [repr] of a string: single quotes, unless the text holds one and no
    double quote. *)
Definition repr_str (s : str) : str :=
  let q := if existsb (Ascii.eqb squote) s && negb (existsb (Ascii.eqb dquote) s)
           then dquote else squote in
  [q]
  ++ concat
       (map (fun c =>
               let n := nat_of_ascii c in
               if Ascii.eqb c backslash then [backslash; backslash]
               else if Ascii.eqb c q then [backslash; q]
               else if Ascii.eqb c nl then [backslash; "n"%char]
               else if Ascii.eqb c cr then [backslash; "r"%char]
               else if Ascii.eqb c tab then [backslash; "t"%char]
               else if ((n <? 32) || (127 <=? n) && (n <=? 160) || (n =? 173))%nat
               then [backslash; "x"%char] ++ hex2 c
               else [c]) s)
  ++ [q].

Fixpoint repr (v : value) : str :=
  match v with
  | VNone => lit "None"
  | VBool true => lit "True"
  | VBool false => lit "False"
  | VInt n => str_of_Z n
  | VFloat q => dump_float q
  | VNan => lit "nan"
  | VInf false => lit "inf"
  | VInf true => lit "-inf"
  | VStr s => repr_str s
  | VList l => lit "[" ++ join (lit ", ") (map repr l) ++ lit "]"
  | VDict d =>
      lit "{"
      ++ join (lit ", ") (map (fun '(k, x) => repr_str k ++ lit ": " ++ repr x) d)
      ++ lit "}"
  end.

(** Truncated series; any functions would do for the properties below. *)
Definition cos_series (t : Q) : Q := 1 - t * t / 2 + t * t * t * t / 24.
Definition sin_series (t : Q) : Q := t - t * t * t / 6.

Definition two_digits (n : nat) : str :=
  (if (n <? 10)%nat then lit "0" else []) ++ str_of_nat n.

(** Two decimals, rounding half up; enough for scalars in [0,1]. *)
Definition format_2f (v : Q) : str :=
  let n := Z.to_nat (Qfloor (v * 100 + 0.5)) in
  str_of_nat (n / 100) ++ lit "." ++ two_digits (n mod 100).

Definition utcnow (k : nat) : str :=
  lit "2025-01-01T00:00:" ++ two_digits (k mod 60).

Definition env : Env :=
  mkEnv cos_series sin_series format_2f utcnow
    (fun _ population n => firstn n population) dumps loads repr.

Definition empty_world : World := mkWorld (mkDisk None true true) 0 [].

(** The fake LLM as a function that always answers. *)
Definition echo (msgs : list Message) : str :=
  match rev (filter (fun m => str_eqb (msg_role m) (lit "user")) msgs) with
  | [] => []
  | m :: _ =>
      lit "(FAKE_LLM) I received your message: "
      ++ firstn 200 (msg_content m) ++ lit " ..."
  end.

(** What a self-evaluation may look like. *)
Definition review : str :=
  lit "1) Strengths: short. 2) Weaknesses: vague.
ROMANAI_FINAL: improved text
".

(** A scripted function: the review for the self-eval call, a padded draft
    for every other call. *)
Definition critic_llm : RomanAISpacetimeEngine.llm_func :=
  fun msgs =>
    match msgs with
    | m :: _ =>
        if starts_with (lit "You are RomanAI performing self-reflection")
             (msg_content m)
        then inr review else inr (lit "  a draft  ")
    | [] => inl (Exception (lit "IndexError"))
    end.

(** A function that always raises. *)
Definition failing_llm : RomanAISpacetimeEngine.llm_func :=
  fun _ => inl (Exception (lit "boom")).

(** A freshly constructed engine with the default switches. *)
Definition fresh : RomanAISpacetimeEngine.t * World :=
  RomanAISpacetimeEngine.init env (lit "RomanAI") true true true empty_world.

(** A scripted function whose review holds nothing but a tab after the
    marker. *)
Definition blank_critic_llm : RomanAISpacetimeEngine.llm_func :=
  fun msgs =>
    match msgs with
    | m :: _ =>
        if starts_with (lit "You are RomanAI performing self-reflection")
             (msg_content m)
        then inr (lit "ROMANAI_FINAL" ++ ["009"%char])
        else inr (lit "  a draft  ")
    | [] => inl (Exception (lit "IndexError"))
    end.

End Demo.


(** ** Vocabulary of the statements *)

(** A text whose last line is complete: empty, or ending in a line
    terminator. *)
Definition terminated (text : str) : bool :=
  match rev text with
  | [] => true
  | c :: _ => is_eol c
  end.

(** The text of the log, a missing file counting as empty. *)
Definition log_text (d : Disk) : str :=
  match log d with Some text => text | None => [] end.

(** The codec laws an item must satisfy for its log line to be read back:
    its JSON text holds no line terminator, is not changed by [strip], is
    not empty, and decodes to the item.  Python's [json] gives all four
    (the text runs from an opening to a closing brace and control
    characters are escaped). *)
Definition codec_ok (env : Env) (item : MemoryItem) : Prop :=
  forallb inline (json_dumps env item) = true
  /\ strip (json_dumps env item) = json_dumps env item
  /\ json_dumps env item <> []
  /\ json_load_item env (json_dumps env item) = Some item.

(** The lines the reading loop passes over: a blank line, a line that is
    not JSON, a JSON value that is not an object with exactly the four
    attribute names, and an object whose role is not "summary" and whose
    importance does not compare with a number. *)
Definition passed_over (env : Env) (line : str) : Prop :=
  strip line = []
  \/ json_loads env (strip line) = None
  \/ (exists raw e,
        json_loads env (strip line) = Some raw /\ MemoryItem_of raw = inl e)
  \/ (exists item e,
        json_load_item env (strip line) = Some item
        /\ py_eq_str (role item) (lit "summary") = false
        /\ py_ge (importance item) 0.7 = inl e).

(** The arguments of one [add] call: role, content, importance. *)
Definition add_args : Type := (str * str * Q)%type.

(** A sequence of [add] calls on one store. *)
Definition add_all (env : Env) (adds : list add_args)
  (st : MemoryStore.t * World) : MemoryStore.t * World :=
  fold_left (fun st '(r, c, i) => MemoryStore.add env r c i st) adds st.

(** The items those calls construct when the first one reads tick [k]. *)
Fixpoint items_added (env : Env) (k : nat) (adds : list add_args)
  : list MemoryItem :=
  match adds with
  | [] => []
  | (r, c, i) :: rest =>
      MemoryStore.new_item env k r c i :: items_added env (S k) rest
  end.

(** The reading loop of [_load_from_disk] over the text of the file. *)
Definition replay (env : Env) (text : str) (self : MemoryStore.t)
  : MemoryStore.t :=
  fold_left (MemoryStore.load_line env) (file_lines text) self.

(** One recorded call of the injected function. *)
Definition entry : Type := (call_site * list Message * result str)%type.

Definition site_of (x : entry) : call_site := fst (fst x).

Definition is_summary_site (s : call_site) : bool :=
  match s with Summary => true | _ => false end.

(** The calls recorded between two worlds of one run. *)
Definition new_calls (before after : World) : list entry :=
  skipn (length (calls before)) (calls after).

(** How many summarization attempts a list of calls holds. *)
Definition summary_attempts (l : list entry) : nat :=
  length (filter (fun x => is_summary_site (site_of x)) l).

(** Consecutive turns on one engine object; a turn that raises leaves the
    object as the exception found it. *)
Fixpoint run_turns (env : Env) (llm : RomanAISpacetimeEngine.llm_func)
  (texts : list str) (st : RomanAISpacetimeEngine.t * World)
  : RomanAISpacetimeEngine.t * World :=
  match texts with
  | [] => st
  | u :: rest =>
      run_turns env llm rest
        (snd (RomanAISpacetimeEngine.generate_reply env u llm st))
  end.

(** A generation function that always answers. *)
Definition total_llm (g : list Message -> str) : RomanAISpacetimeEngine.llm_func :=
  fun msgs => inr (g msgs).

(** The record shows what the function answered to the messages it got. *)
Definition faithful (llm : RomanAISpacetimeEngine.llm_func) (x : entry) : Prop :=
  snd x = llm (snd (fst x)).

(** A call that answered. *)
Definition answered (x : entry) : Prop := exists s, snd x = inr s.

(** The text of the specification's concrete scenario. *)
Definition sad_text : str := lit "I feel so sad and lonely today".

Definition marker : str := lit "ROMANAI_FINAL".

(** A recorded call made before the self-evaluation that answered. *)
Definition early (llm : RomanAISpacetimeEngine.llm_func) (x : entry) : Prop :=
  site_of x <> Summary /\ site_of x <> SelfEval /\ answered x /\ faithful llm x.

(** Everything after the first occurrence of the marker. *)
Definition after_marker (t : str) : str :=
  skipn (index marker t + length marker) t.

(** That text with only its leading ':' and whitespace removed. *)
Definition leading_stripped (t : str) : str :=
  drop_while (fun c => Ascii.eqb c ":"%char || is_space c) (after_marker t).

(** ** Spacetime optimizer *)

Module SpacetimeOptimizer.

Section WithLibs.
(* [float(np.linalg.norm(v))] and [math.sqrt], library functions *)
Variable np_norm : list Q -> Q.
Variable math_sqrt : Q -> Q.

(** The literal [1e-12]. *)
Definition tiny : Q := 1 # 1000000000000.

(** The two assignments [boosted[0], boosted[1] = t2, x2]. *)
Definition boost (gamma eps : Q) (u : list Q) : list Q :=
  match u with
  | t :: x :: rest =>
      let t2 := gamma * (t - eps * x) in
      let x2 := gamma * (x - eps * t) in
      t2 :: x2 :: rest
  | _ => u
  end.

(** [boosted * (1 - tau) + u * tau] on arrays of one length. *)
Fixpoint blend (tau : Q) (boosted u : list Q) : list Q :=
  match boosted, u with
  | b :: bs, a :: us => (b * (1 - tau) + a * tau) :: blend tau bs us
  | _, _ => []
  end.

(** [spacetime_optimize_v3]; the one exception it can raise is the
    division by a zero square root. *)
Definition spacetime_optimize_v3 (vec : list Q) (epsilon tau : Q)
  : result (list Q) :=
  match vec with
  | [] => inr []
  | _ =>
      let v := vec in
      let norm := np_norm v in
      if Qltb norm tiny then inr (map (fun _ => 0.0) vec)
      else
        let u := map (fun a => a / norm) v in
        let eps := py_max (py_min epsilon 0.999999) (- 0.999999) in
        let root := math_sqrt (1.0 - eps * eps) in
        if Qeq_bool root 0
        then inl (Exception (lit "float division by zero"))
        else
          let gamma := 1.0 / root in
          let boosted :=
            if (2 <=? length u)%nat then boost gamma eps u else u in
          inr (map (fun b => b * norm) (blend tau boosted u))
  end.

End WithLibs.
End SpacetimeOptimizer.

(** ** A caller: the master helper ([helper_master.py]) *)

Module HelperMaster.

Definition triggers : list str :=
  [lit "quantum"; lit "spacetime"; lit "tesseract"; lit "dimension";
   lit "4d"; lit "6d"; lit "spin"; lit "entangle"; lit "superposition"].

Definition _quantum_hint (prompt : str) : str :=
  if any_in triggers (lower prompt)
  then [nl] ++ lit "[Quantum-Assist Node Activated]" ++ [nl]
       ++ lit "Internal simulation: applying reversible logic gates, state vector rotation, and 4D cognitive compression."
       ++ [nl]
  else [].

(** The loop that keeps the content of the last message whose role is
    "user". *)
Definition last_user_content (messages : list Message) : str :=
  fold_left
    (fun acc m => if str_eqb (msg_role m) (lit "user") then msg_content m else acc)
    messages [].

Definition _fallback_llm (messages : list Message) : str :=
  let user_prompt := last_user_content messages in
  let q := _quantum_hint user_prompt in
  lit "[Fallback Master Brain]" ++ [nl]
  ++ q
  ++ lit "Reasoning layers:" ++ [nl]
  ++ lit " - Logical baseline: interpreting your request." ++ [nl]
  ++ lit " - Empathic check: emotional context evaluated." ++ [nl]
  ++ lit " - Creative synthesis: generating solutions." ++ [nl]
  ++ lit " - Memory resonance: aligning with past items." ++ [nl; nl]
  ++ lit "User Prompt: " ++ firstn 300 user_prompt ++ lit "..." ++ [nl]
  ++ lit "Provisional Answer: The Helper Master Brain would respond with a deeply layered, multi-dimensional analysis here.".

(** [str(e)]. *)
Definition str_of_exn (e : Exn) : str :=
  match e with Exception what => what end.

Section WithModel.
(* the loaded GGUF model, when there is one: the chat completion and the
   extraction of its text, which answer or raise *)
Variable _master_llm : option (list Message -> result str).
Variable env : Env.

Definition _llm_call : RomanAISpacetimeEngine.llm_func :=
  fun messages =>
    match _master_llm with
    | Some model =>
        match model messages with
        | inr content => inr content
        | inl e => inr (lit "[Master GGUF error: " ++ str_of_exn e ++ lit "]")
        end
    | None => inr (_fallback_llm messages)
    end.

(** [run(prompt)] on the module's [ENGINE] global. *)
Definition run (prompt : str)
  (st : option RomanAISpacetimeEngine.t * World)
  : str * (option RomanAISpacetimeEngine.t * World) :=
  match fst st with
  | None => (lit "[helper_master] ERROR: Spacetime Engine unavailable.", st)
  | Some engine =>
      match RomanAISpacetimeEngine.generate_reply env prompt _llm_call
              (engine, snd st) with
      | (inr answer, (engine', w')) => (answer, (Some engine', w'))
      | (inl e, (engine', w')) =>
          (lit "[helper_master ERROR: " ++ str_of_exn e ++ lit "]",
           (Some engine', w'))
      end
  end.

End WithModel.
End HelperMaster.

(** ** More vocabulary *)

Inductive tier := ShortTerm | MidTerm | LongTerm.

(** The tier the routing rule gives an item whose importance is a
    number. *)
Definition tier_of (item : MemoryItem) : tier :=
  if py_eq_str (role item) (lit "summary") then MidTerm
  else match py_ge (importance item) 0.7 with
       | inr true => LongTerm
       | _ => ShortTerm
       end.

Definition tier_eqb (a b : tier) : bool :=
  match a, b with
  | ShortTerm, ShortTerm | MidTerm, MidTerm | LongTerm, LongTerm => true
  | _, _ => false
  end.

(** The items of a list that the rule sends to one tier, in order. *)
Definition routed (t : tier) (l : list MemoryItem) : list MemoryItem :=
  filter (fun item => tier_eqb (tier_of item) t) l.

(** Both ring buffers hold no more than their capacity. *)
Definition within_capacity (m : MemoryStore.t) : Prop :=
  (length (items (MemoryStore.short_term m))
   <= maxlen (MemoryStore.short_term m))%nat
  /\ (length (items (MemoryStore.mid_term m))
      <= maxlen (MemoryStore.mid_term m))%nat.

(** The lines a sequence of items makes in the log. *)
Definition log_lines (env : Env) (l : list MemoryItem) : str :=
  concat (map (fun item => json_dumps env item ++ [nl]) l).

(** The test of the importance heuristic in [generate_reply]. *)
Definition has_keyword (user_text : str) : bool :=
  any_in [lit "important"; lit "remember"; lit "my name";
          lit "my birthday"; lit "my project"] (lower user_text).

Definition ends_with (suffix s : str) : Prop := exists pre, s = pre ++ suffix.

(** Concrete library functions for the optimizer: a norm and a square
    root that are exact on the 3-4-5 triangle and on 0.64. *)
Module DemoOptimizer.

Definition norm (v : list Q) : Q :=
  if Qeq_bool (fold_left (fun acc a => acc + a * a) v 0) 25 then 5 else 1.

Definition sqrt (q : Q) : Q := if Qeq_bool q 0.64 then 0.8 else 1.

End DemoOptimizer.

(** * Properties *)

(** ** Arithmetic of the float builtins *)

Lemma Qltb_true (a b : Q) : Qltb a b = true <-> a < b.
Proof.
  unfold Qltb. rewrite negb_true_iff.
  split; intro H.
  - apply Qnot_le_lt. intro L. apply Qle_bool_iff in L. congruence.
  - destruct (Qle_bool b a) eqn:E; [|reflexivity].
    apply Qle_bool_iff in E. exfalso. apply (Qlt_not_le _ _ H E).
Qed.

Lemma Qltb_false (a b : Q) : Qltb a b = false <-> b <= a.
Proof.
  unfold Qltb. rewrite negb_false_iff. apply Qle_bool_iff.
Qed.

Lemma py_min_cases (a b : Q) :
  (b < a /\ py_min a b = b) \/ (a <= b /\ py_min a b = a).
Proof.
  unfold py_min. destruct (Qltb b a) eqn:E.
  - left. split; [apply Qltb_true, E | reflexivity].
  - right. split; [apply Qltb_false, E | reflexivity].
Qed.

Lemma py_max_cases (a b : Q) :
  (a < b /\ py_max a b = b) \/ (b <= a /\ py_max a b = a).
Proof.
  unfold py_max. destruct (Qltb a b) eqn:E.
  - left. split; [apply Qltb_true, E | reflexivity].
  - right. split; [apply Qltb_false, E | reflexivity].
Qed.

(** [max(0.0, min(1.0, v))] lands in the unit interval whatever [v] is. *)
Lemma clamp01_bounds (v : Q) :
  0 <= py_max 0.0 (py_min 1.0 v) /\ py_max 0.0 (py_min 1.0 v) <= 1.
Proof.
  destruct (py_min_cases 1.0 v) as [[H1 E1]|[H1 E1]];
    destruct (py_max_cases 0.0 (py_min 1.0 v)) as [[H2 E2]|[H2 E2]];
    rewrite E2; rewrite ?E1 in *; lra.
Qed.

(** ... and leaves a value of the unit interval as it is. *)
Lemma clamp01_id (v : Q) :
  0 <= v -> v <= 1 -> py_max 0.0 (py_min 1.0 v) == v.
Proof.
  intros L U.
  destruct (py_min_cases 1.0 v) as [[H1 E1]|[H1 E1]];
    destruct (py_max_cases 0.0 (py_min 1.0 v)) as [[H2 E2]|[H2 E2]];
    rewrite E2; rewrite ?E1 in *; lra.
Qed.

(** The same comparison against 0.7 before and after clamping. *)
Lemma clamp01_threshold (v : Q) :
  Qle_bool 0.7 (py_max 0.0 (py_min 1.0 v)) = Qle_bool 0.7 v.
Proof.
  destruct (Qle_bool 0.7 v) eqn:E.
  - apply Qle_bool_iff in E. apply Qle_bool_iff.
    destruct (py_min_cases 1.0 v) as [[H1 E1]|[H1 E1]];
      destruct (py_max_cases 0.0 (py_min 1.0 v)) as [[H2 E2]|[H2 E2]];
      rewrite E2; rewrite ?E1 in *; lra.
  - destruct (Qle_bool 0.7 (py_max 0.0 (py_min 1.0 v))) eqn:F; [|reflexivity].
    apply Qle_bool_iff in F.
    assert (N : ~ 0.7 <= v) by (rewrite <- Qle_bool_iff; congruence).
    exfalso. apply N.
    destruct (py_min_cases 1.0 v) as [[H1 E1]|[H1 E1]];
      destruct (py_max_cases 0.0 (py_min 1.0 v)) as [[H2 E2]|[H2 E2]];
      rewrite E2 in F; rewrite ?E1 in *; lra.
Qed.

(** ** State vector *)

Module SpacetimeStateFacts.
Import SpacetimeState.

Lemma field_eq_dec (f g : field) : {f = g} + {f <> g}.
Proof. decide equality. Qed.

Lemma get_clamp (f : field) (s : t) :
  get f (clamp s) = py_max 0.0 (py_min 1.0 (get f s)).
Proof. destruct f; reflexivity. Qed.

Lemma clamp_in_range (s : t) : in_range (clamp s).
Proof. intro f. rewrite get_clamp. apply clamp01_bounds. Qed.

Lemma get_set_same (f : field) (v : Q) (s : t) : get f (set f v s) = v.
Proof. destruct f; reflexivity. Qed.

Lemma get_set_other (f g : field) (v : Q) (s : t) :
  f <> g -> get f (set g v s) = get f s.
Proof. destruct f, g; intro N; try reflexivity; congruence. Qed.

Lemma get_soften (f : field) (factor : Q) (s : t) :
  get f (soften factor s) =
  match neutral f with
  | Some n => get f s + (n - get f s) * factor
  | None => get f s
  end.
Proof. destruct f; reflexivity. Qed.

Lemma soften_in_range (factor : Q) (s : t) :
  0 <= factor -> factor <= 1 -> in_range s -> in_range (soften factor s).
Proof.
  intros L U R f. rewrite get_soften. destruct (R f) as [Lf Uf].
  unfold unit_interval.
  destruct f; cbn [neutral]; try (split; assumption); split; nra.
Qed.

Lemma rotate_plane_in_range cos sin a b theta s s' :
  rotate_plane cos sin a b theta s = Some s' -> in_range s'.
Proof.
  unfold rotate_plane.
  destruct (field_of_name a); [|discriminate].
  destruct (field_of_name b); [|discriminate].
  intro E. injection E as <-. apply clamp_in_range.
Qed.

Lemma after_in_range cos sin c s :
  gentle c -> in_range s -> in_range (after cos sin c s).
Proof.
  destruct c as [factor|a b theta]; cbn [after gentle].
  - intros [L U]. now apply soften_in_range.
  - intros _ R. destruct (rotate_plane cos sin a b theta s) eqn:E.
    + eapply rotate_plane_in_range; eassumption.
    + assumption.
Qed.

End SpacetimeStateFacts.

(** C1 (as amended).  Starting from a state whose six scalars lie in
    [0,1], after every call of any finite sequence of [soften] calls with
    a factor in [0,1] and [rotate_plane] calls with arbitrary axis names and
    angles, all six scalars lie in [0,1]. *)
Theorem state_stays_in_unit_interval
  (cos sin : Q -> Q) (s : SpacetimeState.t) (calls : list SpacetimeState.call) :
  SpacetimeState.in_range s ->
  Forall SpacetimeState.gentle calls ->
  Forall SpacetimeState.in_range (SpacetimeState.history cos sin s calls).
Proof.
  intros R G. revert s R.
  induction G as [|c rest Gc _ IH]; intros s R; cbn [SpacetimeState.history].
  - constructor.
  - assert (R' := SpacetimeStateFacts.after_in_range cos sin c s Gc R).
    constructor; [exact R' | apply IH, R'].
Qed.

Lemma default_in_range : SpacetimeState.in_range SpacetimeState.default.
Proof. intro f. unfold SpacetimeState.unit_interval. destruct f; cbn; lra. Qed.

Lemma state_stays_in_unit_interval_witness :
  Forall SpacetimeState.in_range
    (SpacetimeState.history Demo.cos_series Demo.sin_series
       SpacetimeState.default
       [SpacetimeState.Relax 0.05;
        SpacetimeState.RotatePlane (lit "w") (lit "y") 0.03;
        SpacetimeState.Relax 1]).
Proof.
  apply (state_stays_in_unit_interval Demo.cos_series Demo.sin_series
           SpacetimeState.default).
  - exact default_in_range.
  - repeat constructor; cbn; lra.
Defined.

(** C1 as stated fails: [soften] does not clamp, so a factor above 1
    carries an in-range scalar out of [0,1] (logic 0 goes to 1.1 with
    factor 2), and an out-of-range scalar stays out under a small factor
    (logic 2 goes to 1.275 with factor 0.5). *)
Lemma relax_escapes_unit_interval :
  ~ Forall SpacetimeState.in_range
      (SpacetimeState.history Demo.cos_series Demo.sin_series
         (SpacetimeState.mk 0 0.5 0.5 0.5 0.5 0.5) [SpacetimeState.Relax 2])
  /\
  ~ Forall SpacetimeState.in_range
      (SpacetimeState.history Demo.cos_series Demo.sin_series
         (SpacetimeState.mk 2 0.5 0.5 0.5 0.5 0.5) [SpacetimeState.Relax 0.5]).
Proof.
  split; intro H; inversion H as [|s l R _]; subst;
    destruct (R SpacetimeState.W) as [_ U]; cbn in U; lra.
Qed.

(** C10.  On a state whose six scalars lie in [0,1], [soften] leaves the
    energy as it is for every factor, and [rotate_plane] on two attribute
    names returns and leaves every scalar other than the two named ones as
    it is, for every angle. *)
Theorem relax_and_rotate_frame
  (cos sin : Q -> Q) (s : SpacetimeState.t) :
  SpacetimeState.in_range s ->
  (forall factor,
     SpacetimeState.energy (SpacetimeState.soften factor s)
     = SpacetimeState.energy s)
  /\
  (forall a b fa fb theta,
     SpacetimeState.field_of_name a = Some fa ->
     SpacetimeState.field_of_name b = Some fb ->
     exists s',
       SpacetimeState.rotate_plane cos sin a b theta s = Some s' /\
       forall f, f <> fa -> f <> fb ->
                 SpacetimeState.get f s' == SpacetimeState.get f s).
Proof.
  intro R. split.
  - intro factor. reflexivity.
  - intros a b fa fb theta Ea Eb. unfold SpacetimeState.rotate_plane.
    rewrite Ea, Eb. eexists. split; [reflexivity|].
    intros f Na Nb. rewrite SpacetimeStateFacts.get_clamp.
    rewrite !SpacetimeStateFacts.get_set_other by assumption.
    destruct (R f). now apply clamp01_id.
Qed.

Lemma relax_and_rotate_frame_witness :
  SpacetimeState.energy (SpacetimeState.soften 7 SpacetimeState.default)
  = SpacetimeState.energy SpacetimeState.default
  /\
  exists s',
    SpacetimeState.rotate_plane Demo.cos_series Demo.sin_series
      (lit "w") (lit "y") 0.03 SpacetimeState.default = Some s' /\
    SpacetimeState.x s' == 0.55 /\ SpacetimeState.z s' == 0.62 /\
    SpacetimeState.energy s' == 0.85 /\ SpacetimeState.coherence s' == 0.80.
Proof.
  destruct (relax_and_rotate_frame Demo.cos_series Demo.sin_series
              SpacetimeState.default default_in_range) as [HE HR].
  split; [apply HE|].
  destruct (HR (lit "w") (lit "y") SpacetimeState.W SpacetimeState.Y 0.03
              eq_refl eq_refl) as [s' [E F]].
  exists s'. split; [exact E|].
  repeat split.
  - apply (F SpacetimeState.X); discriminate.
  - apply (F SpacetimeState.Z); discriminate.
  - apply (F SpacetimeState.Energy); discriminate.
  - apply (F SpacetimeState.Coherence); discriminate.
Defined.

(** ** Strings and ring buffers *)

Lemma str_eqb_eq (a b : str) : str_eqb a b = true <-> a = b.
Proof.
  revert b. induction a as [|c a IH]; intros [|d b]; cbn; try easy.
  rewrite andb_true_iff, Ascii.eqb_eq, IH.
  split; [intros [-> ->]; reflexivity | intro E; injection E; auto].
Qed.

Lemma str_eqb_neq (a b : str) : str_eqb a b = false <-> a <> b.
Proof.
  rewrite <- str_eqb_eq. destruct (str_eqb a b); split; congruence.
Qed.

Lemma deque_append_room {A} (d : deque A) (v : A) :
  (length (items d) < maxlen d)%nat ->
  items (deque_append d v) = items d ++ [v].
Proof.
  intro H. unfold deque_append. cbn [items].
  rewrite length_app. cbn [length].
  replace (length (items d) + 1 - maxlen d)%nat with 0%nat by lia.
  reflexivity.
Qed.

Lemma deque_append_full {A} (d : deque A) (v : A) :
  length (items d) = maxlen d -> (0 < maxlen d)%nat ->
  items (deque_append d v) = tl (items d) ++ [v].
Proof.
  intros H P. unfold deque_append. cbn [items].
  rewrite length_app. cbn [length].
  replace (length (items d) + 1 - maxlen d)%nat with 1%nat by lia.
  destruct (items d) as [|a l]; [cbn in H; lia | reflexivity].
Qed.

Lemma deque_append_maxlen {A} (d : deque A) (v : A) :
  maxlen (deque_append d v) = maxlen d.
Proof. reflexivity. Qed.

(** ** Memory store: [add] *)

Module MemoryStoreFacts.
Import MemoryStore.

Lemma append_disk_writable env item w :
  writable (disk w) = true ->
  log (disk (_append_disk env item w))
  = Some (match log (disk w) with Some text => text | None => [] end
          ++ json_dumps env item ++ [nl]).
Proof.
  intro H. unfold _append_disk, fs_append. rewrite H. reflexivity.
Qed.

Lemma append_disk_unwritable env item w :
  writable (disk w) = false -> _append_disk env item w = w.
Proof.
  intro H. unfold _append_disk, fs_append. rewrite H. reflexivity.
Qed.

Lemma append_disk_frame env item w :
  tick (_append_disk env item w) = tick w
  /\ calls (_append_disk env item w) = calls w
  /\ readable (disk (_append_disk env item w)) = readable (disk w)
  /\ writable (disk (_append_disk env item w)) = writable (disk w).
Proof.
  unfold _append_disk, fs_append.
  destruct (writable (disk w)) eqn:E; cbn; auto.
Qed.

End MemoryStoreFacts.

(** C2.  For every role, content and importance, [add] builds the item
    from the current clock reading with the importance clamped into
    [0,1]; it changes exactly one tier (mid_term for the role "summary",
    else long_term when the importance is at least 0.7, else short_term),
    a ring buffer with room growing by the item and a full one dropping
    its oldest element; and in every case it hands the item to
    [_append_disk], which on a log that accepts writes appends the item's
    JSON text followed by one newline. *)
Theorem add_places_and_logs
  (env : Env) (r c : str) (i : Q) (self : MemoryStore.t) (w : World) :
  let item := MemoryStore.new_item env (tick w) r c i in
  let self' := fst (MemoryStore.add env r c i (self, w)) in
  let w' := snd (MemoryStore.add env r c i (self, w)) in
(* the item *)
(ts item = VStr (utcnow env (tick w)) /\ role item = VStr r
 /\ content item = VStr c
 /\ importance item = VFloat (py_max 0.0 (py_min 1.0 i))
 /\ 0 <= py_max 0.0 (py_min 1.0 i) /\ py_max 0.0 (py_min 1.0 i) <= 1)
(* the tier *)
/\ (r = lit "summary" ->
    MemoryStore.mid_term self' = deque_append (MemoryStore.mid_term self) item
    /\ MemoryStore.long_term self' = MemoryStore.long_term self
    /\ MemoryStore.short_term self' = MemoryStore.short_term self)
/\ (r <> lit "summary" -> 0.7 <= i ->
    MemoryStore.long_term self' = MemoryStore.long_term self ++ [item]
    /\ MemoryStore.mid_term self' = MemoryStore.mid_term self
    /\ MemoryStore.short_term self' = MemoryStore.short_term self)
/\ (r <> lit "summary" -> i < 0.7 ->
    MemoryStore.short_term self'
    = deque_append (MemoryStore.short_term self) item
    /\ MemoryStore.mid_term self' = MemoryStore.mid_term self
    /\ MemoryStore.long_term self' = MemoryStore.long_term self)
(* the ring buffers *)
/\ (forall d : deque MemoryItem,
      ((length (items d) < maxlen d)%nat ->
       items (deque_append d item) = items d ++ [item])
      /\ (length (items d) = maxlen d -> (0 < maxlen d)%nat ->
          items (deque_append d item) = tl (items d) ++ [item]))
(* the log *)
/\ w' = MemoryStore._append_disk env item
          (mkWorld (disk w) (S (tick w)) (calls w))
/\ (writable (disk w) = true ->
    log (disk w')
    = Some (match log (disk w) with Some text => text | None => [] end
            ++ json_dumps env item ++ [nl])).
Proof.
cbv zeta. unfold MemoryStore.add. cbn [fst snd].
split; [|split; [|split; [|split; [|split; [|split]]]]].
- cbn. repeat split; try reflexivity; apply clamp01_bounds.
- intros ->. cbn. auto.
- intros N L. apply str_eqb_neq in N. rewrite N.
  apply Qle_bool_iff in L. rewrite L. cbn. auto.
- intros N L. apply str_eqb_neq in N. rewrite N.
  assert (F : Qle_bool 0.7 i = false).
  { destruct (Qle_bool 0.7 i) eqn:E; [|reflexivity].
    apply Qle_bool_iff in E. lra. }
  rewrite F. cbn. auto.
- intro d. split.
  + apply deque_append_room.
  + apply deque_append_full.
- reflexivity.
- intro Wr.
  exact (MemoryStoreFacts.append_disk_writable env _
           (mkWorld (disk w) (S (tick w)) (calls w)) Wr).
Qed.

Lemma add_places_and_logs_witness :
  let st := MemoryStore.add Demo.env (lit "user") (lit "hi") 0.4
              (MemoryStore.mk (mkDeque 32 []) (mkDeque 64 []) [],
               Demo.empty_world) in
  items (MemoryStore.short_term (fst st))
  = [mkItem (lit "2025-01-01T00:00:00") (lit "user") (lit "hi") 0.4]
  /\ log (disk (snd st))
     = Some (Demo.dumps
               (mkItem (lit "2025-01-01T00:00:00") (lit "user") (lit "hi") 0.4)
             ++ [nl]).
Proof.
  pose proof (add_places_and_logs Demo.env (lit "user") (lit "hi") 0.4
                (MemoryStore.mk (mkDeque 32 []) (mkDeque 64 []) [])
                Demo.empty_world) as H.
  cbv zeta in H.
  destruct H as (_ & _ & _ & Hshort & _ & _ & Hlog).
  cbv zeta. split.
  - destruct Hshort as (E & _ & _).
    + discriminate.
    + cbn; lra.
    + rewrite E. reflexivity.
  - rewrite (Hlog eq_refl). reflexivity.
Defined.

(** ** Memory store: replay of the log *)

Module ReplayFacts.
Import MemoryStore.

Lemma file_lines_nonempty (text : str) : file_lines text <> [].
Proof.
  destruct text as [|c rest]; cbn; [discriminate|].
  destruct (is_eol c); [discriminate|].
  destruct (file_lines rest); discriminate.
Qed.

(** A terminator splits the text into the lines before and after it. *)
Lemma file_lines_split (a b : str) (c : ascii) :
  is_eol c = true ->
  file_lines (a ++ c :: b) = file_lines a ++ file_lines b.
Proof.
  intro E. induction a as [|x a IH]; cbn.
  - rewrite E. reflexivity.
  - destruct (is_eol x); [now rewrite IH|].
    rewrite IH.
    destruct (file_lines a) as [|l ls] eqn:F; [|reflexivity].
    exfalso. now apply (file_lines_nonempty a).
Qed.

Lemma file_lines_one (l : str) :
  forallb inline l = true -> file_lines l = [l].
Proof.
  induction l as [|c l IH]; cbn; [reflexivity|].
  unfold inline at 1. rewrite andb_true_iff, negb_true_iff. intros [-> H].
  now rewrite (IH H).
Qed.

Lemma terminated_cases (text : str) :
  terminated text = true ->
  text = [] \/ exists a c, text = a ++ [c] /\ is_eol c = true.
Proof.
  unfold terminated. intro H.
  destruct (rev text) as [|c r] eqn:E.
  - left. apply (f_equal (@rev ascii)) in E. now rewrite rev_involutive in E.
  - right. exists (rev r), c. split; [|exact H].
    apply (f_equal (@rev ascii)) in E. now rewrite rev_involutive in E.
Qed.

Lemma terminated_app_nl (text : str) : terminated (text ++ [nl]) = true.
Proof. unfold terminated. rewrite rev_app_distr. reflexivity. Qed.

Lemma load_line_empty env (self : t) : load_line env self [] = self.
Proof. reflexivity. Qed.

(** Appending one complete line to a terminated text makes the loop
    process that line last. *)
Lemma replay_append_line env (text l : str) (self : t) :
  terminated text = true ->
  forallb inline l = true ->
  replay env (text ++ l ++ [nl]) self
  = load_line env (replay env text self) l.
Proof.
  intros T L. unfold replay.
  assert (Hl : file_lines (l ++ [nl]) = [l; []]).
  { rewrite (file_lines_split l [] nl eq_refl), (file_lines_one l L).
    reflexivity. }
  destruct (terminated_cases text T) as [-> | (a & c & -> & E)].
  - cbn [app]. rewrite Hl. reflexivity.
  - rewrite <- app_assoc. cbn [app].
    rewrite (file_lines_split a (l ++ [nl]) c E), Hl.
    rewrite (file_lines_split a [] c E).
    rewrite !fold_left_app. reflexivity.
Qed.

(** Reading back the line of an item routes it as [add] did. *)
Lemma load_line_dumps env (self : t) (w : World) r c i :
  codec_ok env (new_item env (tick w) r c i) ->
  load_line env self (json_dumps env (new_item env (tick w) r c i))
  = fst (add env r c i (self, w)).
Proof.
  intros (_ & S & N & D). unfold load_line, add. cbn [fst].
  rewrite S.
  destruct (json_dumps env (new_item env (tick w) r c i)) eqn:J;
    [congruence|].
  rewrite D. cbn [role importance new_item mkItem py_eq_str py_ge].
  rewrite clamp01_threshold.
  destruct (str_eqb r (lit "summary")); [reflexivity|].
  destruct (Qle_bool 0.7 i); reflexivity.
Qed.

(** On a log that reads through, loading is the replay of its text. *)
Lemma load_from_disk_replay env (self : t) (w : World) :
  readable (disk w) = true ->
  fault (disk w) = None ->
  _load_from_disk env self w = (replay env (log_text (disk w)) self, w).
Proof.
  intros R F. unfold _load_from_disk, fs_open, fs_lines, log_text.
  destruct (log (disk w)); [now rewrite R, F | reflexivity].
Qed.


Lemma load_from_disk_world env (self : t) (w : World) :
  snd (_load_from_disk env self w) = w.
Proof.
  unfold _load_from_disk.
  destruct (log (disk w)); [|reflexivity].
  destruct (fs_open (disk w)); reflexivity.
Qed.

Lemma add_world env r c i (self : t) (w : World) :
  writable (disk w) = true ->
  let w' := snd (add env r c i (self, w)) in
  log_text (disk w')
  = log_text (disk w) ++ json_dumps env (new_item env (tick w) r c i) ++ [nl]
  /\ writable (disk w') = true
  /\ readable (disk w') = readable (disk w)
  /\ tick w' = S (tick w).
Proof.
  intro Wr. cbv zeta. unfold add. cbn [snd].
  unfold _append_disk, fs_append, log_text. cbn [disk].
  rewrite Wr. cbn. auto.
Qed.

(** Appending never moves or removes what makes the file unreadable. *)
Lemma add_fault env r c i (self : t) (w : World) :
  fault (disk (snd (add env r c i (self, w)))) = fault (disk w).
Proof.
  unfold add. cbn [snd]. unfold _append_disk, fs_append. cbn [disk].
  destruct (writable (disk w)); reflexivity.
Qed.

Lemma add_all_fault env (adds : list add_args) :
  forall (self : t) (w : World),
    fault (disk (snd (add_all env adds (self, w)))) = fault (disk w).
Proof.
  induction adds as [|[[r c] i] rest IH]; intros self w; [reflexivity|].
  cbn [add_all fold_left].
  destruct (add env r c i (self, w)) as [self1 w1] eqn:A.
  fold (add_all env rest (self1, w1)). rewrite IH.
  pose proof (add_fault env r c i self w) as F. now rewrite A in F.
Qed.

(** The live store is, at every moment, what replaying the log gives. *)
Lemma add_all_replay env (adds : list add_args) :
  forall (self0 self : t) (w : World),
    writable (disk w) = true ->
    terminated (log_text (disk w)) = true ->
    replay env (log_text (disk w)) self0 = self ->
    Forall (codec_ok env) (items_added env (tick w) adds) ->
    let live := add_all env adds (self, w) in
    replay env (log_text (disk (snd live))) self0 = fst live
    /\ readable (disk (snd live)) = readable (disk w).
Proof.
  induction adds as [|[[r c] i] rest IH]; intros self0 self w Wr T E OK.
  - cbn. auto.
  - cbn [items_added] in OK. inversion OK as [|? ? OK1 OKr]; subst.
    cbn [add_all fold_left].
    destruct (add_world env r c i (replay env (log_text (disk w)) self0) w Wr)
      as (Hlog & Hw & Hr & Ht).
    destruct (add env r c i (replay env (log_text (disk w)) self0, w))
      as [self1 w1] eqn:A.
    cbn [snd] in Hlog, Hw, Hr, Ht.
    assert (E1 : replay env (log_text (disk w1)) self0 = self1).
    { rewrite Hlog.
      rewrite replay_append_line; [|exact T|apply OK1].
      rewrite (load_line_dumps env _ w r c i OK1), A. reflexivity. }
    assert (T1 : terminated (log_text (disk w1)) = true).
    { rewrite Hlog, app_assoc. apply terminated_app_nl. }
    destruct (IH self0 self1 w1 Hw T1 E1) as [G1 G2].
    + rewrite Ht. exact OKr.
    + fold (add_all env rest (self1, w1)). split; [exact G1|].
      now rewrite G2.
Qed.

End ReplayFacts.

(** C9.  For every role and every importance [i], inside [0,1] or not,
    comparing [i] with 0.7 gives the same outcome as comparing the stored
    value [max(0, min(1, i))] with 0.7; hence reading back a line that
    decodes to the item [add] built puts it where [add] put it. *)
Theorem replay_routes_like_add
  (env : Env) (r c : str) (i : Q) (self : MemoryStore.t) (w : World)
  (line : str) :
  let item := MemoryStore.new_item env (tick w) r c i in
  importance item = VFloat (py_max 0.0 (py_min 1.0 i))
  /\ Qle_bool 0.7 i = Qle_bool 0.7 (py_max 0.0 (py_min 1.0 i))
  /\ py_ge (importance item) 0.7 = inr (Qle_bool 0.7 i)
  /\ (strip line <> [] ->
      json_load_item env (strip line) = Some item ->
      MemoryStore.load_line env self line
      = fst (MemoryStore.add env r c i (self, w))).
Proof.
  cbv zeta. split; [|split; [|split]].
  - reflexivity.
  - symmetry. apply clamp01_threshold.
  - cbn [importance MemoryStore.new_item mkItem py_ge]. f_equal.
    apply clamp01_threshold.
  - intros N D. unfold MemoryStore.load_line, MemoryStore.add. cbn [fst].
    destruct (strip line) eqn:S; [congruence|].
    rewrite D. cbn [role importance MemoryStore.new_item mkItem py_eq_str py_ge].
    rewrite clamp01_threshold.
    destruct (str_eqb r (lit "summary")); [reflexivity|].
    destruct (Qle_bool 0.7 i); reflexivity.
Qed.

Lemma replay_routes_like_add_witness :
  let empty := MemoryStore.mk (mkDeque 32 []) (mkDeque 64 []) [] in
  let item := MemoryStore.new_item Demo.env 0 (lit "assistant") (lit "ok") 5 in
  importance item = VFloat 1.0
  /\ MemoryStore.load_line Demo.env empty (Demo.dumps item ++ [nl])
     = fst (MemoryStore.add Demo.env (lit "assistant") (lit "ok") 5
              (empty, Demo.empty_world))
  /\ MemoryStore.long_term
       (MemoryStore.load_line Demo.env empty (Demo.dumps item ++ [nl]))
     = [item].
Proof.
  cbv zeta.
  destruct (replay_routes_like_add Demo.env (lit "assistant") (lit "ok") 5
              (MemoryStore.mk (mkDeque 32 []) (mkDeque 64 []) [])
              Demo.empty_world
              (Demo.dumps
                 (MemoryStore.new_item Demo.env 0 (lit "assistant") (lit "ok") 5)
               ++ [nl])) as (_ & _ & _ & H).
  split; [reflexivity|].
  assert (E := H ltac:(vm_compute; discriminate) ltac:(vm_compute; reflexivity)).
  split; [exact E|].
  rewrite E. reflexivity.
Defined.

Lemma load_line_passed_over env (self : MemoryStore.t) (line : str) :
  passed_over env line -> MemoryStore.load_line env self line = self.
Proof.
  unfold passed_over, MemoryStore.load_line, json_load_item.
  intros [B | [J | [(raw & e & J & U) | (item & e & J & R & G)]]].
  - now rewrite B.
  - destruct (strip line); [reflexivity|]. now rewrite J.
  - destruct (strip line); [reflexivity|]. now rewrite J, U.
  - destruct (strip line); [reflexivity|].
    unfold json_load_item in J.
    destruct (json_loads env (a :: s)) as [raw|]; [|discriminate].
    destruct (MemoryItem_of raw) as [|item']; [discriminate|].
    injection J as ->. now rewrite R, G.
Qed.

(** C3 (as amended).  Take a log that is missing, empty or ends in a line
    terminator, that can be opened, reads through to its end and accepts
    writes, a store constructed over it, and any sequence of [add] calls
    whose items satisfy the codec laws.  Then a fresh store constructed
    over the resulting log has the same three tiers as the live store
    (each written entry is back, with the same four fields, in the tier
    [add] chose), and constructing it leaves the world, the log included,
    as it was.  A line is passed over, and the lines around it are still
    read, when it is blank, is not JSON, is not an object with exactly
    the four attribute names, or has a role other than "summary" and an
    importance that does not compare with a number.  A missing log gives
    the empty store. *)
Theorem replay_reproduces_live_store
  (env : Env) (max_short max_mid : nat) (w0 : World) (adds : list add_args) :
  writable (disk w0) = true ->
  readable (disk w0) = true ->
  fault (disk w0) = None ->
  terminated (log_text (disk w0)) = true ->
  Forall (codec_ok env) (items_added env (tick w0) adds) ->
  let live := add_all env adds (MemoryStore.init env max_short max_mid w0) in
  MemoryStore.init env max_short max_mid (snd live) = live
  /\ (forall (self : MemoryStore.t) (a bad b : str),
        forallb inline bad = true ->
        passed_over env bad ->
        replay env (a ++ [nl] ++ bad ++ [nl] ++ b) self
        = replay env (a ++ [nl] ++ b) self)
  /\ (forall w, log (disk w) = None ->
        MemoryStore.init env max_short max_mid w
        = (MemoryStore.mk (mkDeque max_short []) (mkDeque max_mid []) [], w)).
Proof.
  intros Wr Rd Ft T OK. cbv zeta. split; [|split].
  - assert (I0 : MemoryStore.init env max_short max_mid w0
                 = (replay env (log_text (disk w0))
                      (MemoryStore.mk (mkDeque max_short []) (mkDeque max_mid []) []),
                    w0))
      by apply (ReplayFacts.load_from_disk_replay env _ w0 Rd Ft).
    rewrite I0.
    destruct (ReplayFacts.add_all_replay env adds
                (MemoryStore.mk (mkDeque max_short []) (mkDeque max_mid []) [])
                _ w0 Wr T eq_refl OK) as [E R].
    pose proof (ReplayFacts.add_all_fault env adds
                  (replay env (log_text (disk w0))
                     (MemoryStore.mk (mkDeque max_short []) (mkDeque max_mid []) []))
                  w0) as F.
    cbv zeta in E, R.
    set (live := add_all env adds _) in *.
    unfold MemoryStore.init.
    rewrite (ReplayFacts.load_from_disk_replay env _ (snd live)).
    + rewrite E. symmetry. apply surjective_pairing.
    + now rewrite R.
    + now rewrite F.
  - intros self a bad b L D. unfold replay.
    cbn [app].
    rewrite (ReplayFacts.file_lines_split a (bad ++ nl :: b) nl eq_refl).
    rewrite (ReplayFacts.file_lines_split bad b nl eq_refl).
    rewrite (ReplayFacts.file_lines_split a b nl eq_refl).
    rewrite (ReplayFacts.file_lines_one bad L).
    rewrite !fold_left_app. cbn [fold_left].
    f_equal. now apply load_line_passed_over.
  - intros w N. unfold MemoryStore.init, MemoryStore._load_from_disk.
    now rewrite N.
Qed.

Lemma replay_reproduces_live_store_witness :
  let adds := [(lit "user", lit "hi", 0.4);
               (lit "summary", lit "greeting", 0.9);
               (lit "assistant", lit "hello", 2)] in
  let live := add_all Demo.env adds
                (MemoryStore.init Demo.env 32 64 Demo.empty_world) in
  MemoryStore.init Demo.env 32 64 (snd live) = live.
Proof.
  cbv zeta.
  apply (replay_reproduces_live_store Demo.env 32 64 Demo.empty_world).
  - reflexivity.
  - reflexivity.
  - reflexivity.
  - reflexivity.
  - repeat constructor; vm_compute; try reflexivity; discriminate.
Defined.

(** C3 as stated fails in three ways.
    - A log whose last line is not terminated: the line [add] writes is
      glued to that fragment, does not decode on restart, and the written
      entry is in no tier of the fresh store.
    - A log that holds bytes which are not UTF-8 (here its first byte,
      before a newline): the reader raises before it delivers a line, the
      outer handler ends the load, and the entry written after those
      bytes is in no tier of the fresh store.
    - A line that is no memory entry, with [null] for its time stamp, its
      content and its importance, is not skipped: under the role
      "summary" it is kept in mid_term as it is. *)
Lemma restart_does_not_round_trip :
  let item := mkItem (lit "2025-01-01T00:00:00") (lit "user") (lit "hi") 0.4 in
  let empty := MemoryStore.mk (mkDeque 32 []) (mkDeque 64 []) [] in
  codec_ok Demo.env item
  /\ (let w0 := mkWorld (mkDisk (Some (lit "x")) true true) 0 [] in
      let live := MemoryStore.add Demo.env (lit "user") (lit "hi") 0.4
                    (MemoryStore.init Demo.env 32 64 w0) in
      items (MemoryStore.short_term (fst live)) = [item]
      /\ log (disk (snd live)) = Some (lit "x" ++ Demo.dumps item ++ [nl])
      /\ fst (MemoryStore.init Demo.env 32 64 (snd live)) = empty)
  /\ (let w0 := mkWorld (Build_Disk (Some [nl]) true true (Some 0%nat)) 0 [] in
      let live := MemoryStore.add Demo.env (lit "user") (lit "hi") 0.4
                    (MemoryStore.init Demo.env 32 64 w0) in
      items (MemoryStore.short_term (fst live)) = [item]
      /\ log (disk (snd live)) = Some ([nl] ++ Demo.dumps item ++ [nl])
      /\ fst (MemoryStore.init Demo.env 32 64 (snd live)) = empty)
  /\ (let w0 := mkWorld (mkDisk (Some (Demo.null_summary_line ++ [nl]))
                           true true) 0 [] in
      json_loads Demo.env Demo.null_summary_line
      = Some (VDict [(lit "ts", VNone); (lit "role", VStr (lit "summary"));
                     (lit "content", VNone); (lit "importance", VNone)])
      /\ items (MemoryStore.mid_term (fst (MemoryStore.init Demo.env 32 64 w0)))
         = [Build_MemoryItem VNone (VStr (lit "summary")) VNone VNone]).
Proof.
  cbv zeta. split; [|split; [|split]].
  - repeat split; vm_compute; try reflexivity; discriminate.
  - repeat split; vm_compute; reflexivity.
  - repeat split; vm_compute; reflexivity.
  - split; vm_compute; reflexivity.
Qed.

(** The reading loop checks no types: an object with the four attribute
    names and the role "summary" is kept in mid_term whatever its other
    values are, and under another role whatever its time stamp and its
    content are, as long as its importance compares with a number. *)
Lemma ill_typed_line_is_kept env (self : MemoryStore.t) (line : str)
  (item : MemoryItem) :
  strip line <> [] ->
  json_load_item env (strip line) = Some item ->
  (py_eq_str (role item) (lit "summary") = true ->
   MemoryStore.load_line env self line
   = MemoryStore.with_mid self
       (deque_append (MemoryStore.mid_term self) item))
  /\ (py_eq_str (role item) (lit "summary") = false ->
      py_ge (importance item) 0.7 = inr true ->
      MemoryStore.load_line env self line
      = MemoryStore.with_long self (MemoryStore.long_term self ++ [item]))
  /\ (py_eq_str (role item) (lit "summary") = false ->
      py_ge (importance item) 0.7 = inr false ->
      MemoryStore.load_line env self line
      = MemoryStore.with_short self
          (deque_append (MemoryStore.short_term self) item)).
Proof.
  intros N D. unfold MemoryStore.load_line.
  destruct (strip line); [congruence|]. rewrite D.
  split; [|split].
  - now intros ->.
  - now intros -> ->.
  - now intros -> ->.
Qed.

(** ** Stripping and the recall snippet *)

Lemma drop_while_suffix (p : ascii -> bool) (s : str) :
  exists pre, s = pre ++ drop_while p s.
Proof.
  induction s as [|c s [pre IH]]; cbn.
  - now exists [].
  - destruct (p c).
    + exists (c :: pre). cbn. now f_equal.
    + now exists [].
Qed.

(** What [strip] returns is a contiguous piece of its argument. *)
Lemma strip_by_infix (p : ascii -> bool) (s : str) :
  exists pre post, s = pre ++ strip_by p s ++ post.
Proof.
  unfold strip_by.
  destruct (drop_while_suffix p s) as [pre E1].
  destruct (drop_while_suffix p (rev (drop_while p s))) as [post E2].
  exists pre, (rev post).
  rewrite <- rev_app_distr, <- E2, rev_involutive. exact E1.
Qed.

Lemma strip_by_length (p : ascii -> bool) (s : str) :
  (length (strip_by p s) <= length s)%nat.
Proof.
  destruct (strip_by_infix p s) as (pre & post & E).
  rewrite E at 2. rewrite !length_app. lia.
Qed.

Lemma recall_snippet_value env (self : MemoryStore.t) (w : World) M :
  fst (MemoryStore.get_recall_snippet env M (self, w))
  = strip (if (Z.of_nat (length (MemoryStore.recall_blob env self w)) >? M)%Z
           then slice_from (- M) (MemoryStore.recall_blob env self w)
           else MemoryStore.recall_blob env self w).
Proof. reflexivity. Qed.

(** C8 (as amended).  For every store and every bound [M >= 1],
    [get_recall_snippet] returns at most [M] characters; when the joined
    blob is longer than [M], what it returns is the blob's trailing [M]
    characters with the whitespace at both ends removed, a contiguous
    piece of the blob; when the blob fits, it is the blob stripped. *)
Theorem recall_snippet_bound
  (env : Env) (self : MemoryStore.t) (w : World) (M : BinInt.Z) :
  (1 <= M)%Z ->
  let blob := MemoryStore.recall_blob env self w in
  let out := fst (MemoryStore.get_recall_snippet env M (self, w)) in
  let tail := skipn (length blob - Z.to_nat M) blob in
  (Z.of_nat (length out) <= M)%Z
  /\ ((M < Z.of_nat (length blob))%Z ->
      length tail = Z.to_nat M
      /\ out = strip tail
      /\ exists pre post, blob = pre ++ out ++ post)
  /\ ((Z.of_nat (length blob) <= M)%Z -> out = strip blob).
Proof.
  intro P. cbv zeta. rewrite recall_snippet_value.
  set (blob := MemoryStore.recall_blob env self w).
  assert (Hslice : (M < Z.of_nat (length blob))%Z ->
                   slice_from (- M) blob
                   = skipn (length blob - Z.to_nat M) blob).
  { intro L. unfold slice_from.
    replace (- M <? 0)%Z with true by (symmetry; apply Z.ltb_lt; lia).
    f_equal. lia. }
  destruct (Z.gtb_spec (Z.of_nat (length blob)) M) as [G|G].
  - rewrite (Hslice G).
    assert (Hlen : length (skipn (length blob - Z.to_nat M) blob) = Z.to_nat M)
      by (rewrite length_skipn; lia).
    split; [|split].
    + pose proof (strip_by_length is_space
                    (skipn (length blob - Z.to_nat M) blob)) as B.
      fold (strip (skipn (length blob - Z.to_nat M) blob)) in B. lia.
    + intros _. split; [exact Hlen|]. split; [reflexivity|].
      destruct (strip_by_infix is_space
                  (skipn (length blob - Z.to_nat M) blob)) as (a & b & E).
      exists (firstn (length blob - Z.to_nat M) blob ++ a), b.
      rewrite <- app_assoc. unfold strip. rewrite <- E.
      symmetry. apply firstn_skipn.
    + intro L. lia.
  - split; [|split].
    + pose proof (strip_by_length is_space blob) as B.
      fold (strip blob) in B. lia.
    + intro L. lia.
    + intros _. reflexivity.
Qed.

Lemma recall_snippet_bound_witness :
  let store :=
    MemoryStore.mk
      (mkDeque 32 [mkItem (lit "t0") (lit "user") (lit "hello there") 0.4])
      (mkDeque 64 []) [] in
  (length (fst (MemoryStore.get_recall_snippet Demo.env 5
                  (store, Demo.empty_world))) <= 5)%nat
  /\ fst (MemoryStore.get_recall_snippet Demo.env 5 (store, Demo.empty_world))
     = lit "there".
Proof.
  cbv zeta.
  destruct (recall_snippet_bound Demo.env
              (MemoryStore.mk
                 (mkDeque 32
                    [mkItem (lit "t0") (lit "user") (lit "hello there") 0.4])
                 (mkDeque 64 []) [])
              Demo.empty_world 5 ltac:(lia)) as (B & T & _).
  split; [lia|].
  destruct (T ltac:(vm_compute; reflexivity)) as (_ & E & _).
  rewrite E. reflexivity.
Defined.

(** C8 as stated fails in two ways.  With [max_chars = 0] the slice
    [blob[-0:]] is the whole blob, so a non-empty snippet comes back; and
    because the result is stripped after the cut, a blob that ends in
    whitespace gives a result that is neither its trailing [M] characters
    nor a tail of it. *)
Lemma recall_snippet_not_a_tail :
  let store0 :=
    MemoryStore.mk (mkDeque 32 [mkItem (lit "t0") (lit "user") (lit "hi") 0.4])
      (mkDeque 64 []) [] in
  let store1 :=
    MemoryStore.mk (mkDeque 32 [mkItem (lit "t0") (lit "user") (lit "hi ") 0.4])
      (mkDeque 64 []) [] in
  let out0 := fst (MemoryStore.get_recall_snippet Demo.env 0
                     (store0, Demo.empty_world)) in
  let blob1 := MemoryStore.recall_blob Demo.env store1 Demo.empty_world in
  let out1 := fst (MemoryStore.get_recall_snippet Demo.env 5
                     (store1, Demo.empty_world)) in
  (out0 = lit "[RECENT] user: hi" /\ ~ (Z.of_nat (length out0) <= 0)%Z)
  /\ (blob1 = lit "[RECENT] user: hi " /\ (5 < Z.of_nat (length blob1))%Z
      /\ out1 = lit ": hi"
      /\ out1 <> skipn (length blob1 - 5) blob1
      /\ ~ exists pre, blob1 = pre ++ out1).
Proof.
  cbv zeta. split.
  - split; [reflexivity|]. vm_compute. intro H. apply H. reflexivity.
  - split; [reflexivity|]. split; [vm_compute; reflexivity|].
    split; [reflexivity|]. split.
    + vm_compute. discriminate.
    + intros [pre E].
      apply (f_equal (@rev ascii)) in E. rewrite rev_app_distr in E.
      vm_compute in E. discriminate E.
Qed.

(** ** Engine: one turn *)

Import RomanAISpacetimeEngine.

Ltac tidy := cbn [fst snd disk tick calls memory state dialog_history
                  enable_recursive enable_multi_agent enable_self_eval name
                  with_state with_memory with_history] in *.

Lemma recall_snippet_world env M m w :
  disk (snd (MemoryStore.get_recall_snippet env M (m, w))) = disk w
  /\ calls (snd (MemoryStore.get_recall_snippet env M (m, w))) = calls w.
Proof.
  unfold MemoryStore.get_recall_snippet. cbn [snd].
  destruct (MemoryStore.long_term m); auto.
Qed.

Lemma draft_step_cases env u llm self w :
  exists r w',
    draft_step env u llm (self, w) = (r, (self, w'))
    /\ disk w' = disk w
    /\ ((exists cm e, enable_multi_agent self = true /\ r = inl e
                      /\ llm cm = inl e
                      /\ calls w' = calls w ++ [(Council, cm, inl e)])
        \/ (exists cl dm rd,
              (cl = [] \/ exists cm a, cl = [(Council, cm, inr a)]
                                       /\ llm cm = inr a)
              /\ llm dm = rd
              /\ calls w' = calls w ++ cl ++ [(Draft, dm, rd)]
              /\ r = match rd with inl e => inl e | inr d => inr (strip d) end)).
Proof.
  unfold draft_step, _build_system_prompt, bind, get_self, call_llm, ret.
  destruct (recall_snippet_world env 1200 (memory self) w) as [D1 C1].
  tidy.
  destruct (MemoryStore.get_recall_snippet env 1200 (memory self, w))
    as [recall w1]. tidy.
  destruct (enable_multi_agent self) eqn:MA.
  - match goal with
    | |- context [llm ?m] => destruct (llm m) as [e|a] eqn:LC
    end; tidy.
    + eexists _, _. split; [reflexivity|]. tidy. split; [exact D1|].
      left. eexists _, _. rewrite C1.
      split; [reflexivity|]. split; [reflexivity|]. split; [exact LC|].
      reflexivity.
    + match goal with
      | |- context [(Draft, ?m, llm ?m)] => destruct (llm m) as [e|d] eqn:LD
      end; tidy;
        (eexists _, _; split; [reflexivity|]; tidy; split; [exact D1|];
         right; eexists _, _, _; (split; [|split; [|split]]); cycle 2;
         [ rewrite C1, <- app_assoc; reflexivity
         | reflexivity
         | right; eexists _, _; split; [reflexivity|exact LC]
         | exact LD ]).
  - match goal with
    | |- context [(Draft, ?m, llm ?m)] => destruct (llm m) as [e|d] eqn:LD
    end; tidy;
      (eexists _, _; split; [reflexivity|]; tidy; split; [exact D1|];
       right; exists []; eexists _, _; (split; [|split; [|split]]); cycle 2;
       [ rewrite C1; reflexivity
       | reflexivity
       | left; reflexivity
       | exact LD ]).
Qed.

Lemma self_eval_step_cases u llm draft self w :
  exists r w',
    self_eval_step u llm draft (self, w) = (r, (self, w'))
    /\ disk w' = disk w /\ tick w' = tick w
    /\ ((enable_self_eval self = false /\ r = inr draft /\ calls w' = calls w)
        \/ (enable_self_eval self = true /\ exists em rt,
              llm em = rt
              /\ calls w' = calls w ++ [(SelfEval, em, rt)]
              /\ r = match rt with
                     | inl e => inl e
                     | inr t =>
                         let improved :=
                           strip_chars [" "%char; ":"%char; nl]
                             (skipn (index (lit "ROMANAI_FINAL") t
                                     + length (lit "ROMANAI_FINAL"))%nat t) in
                         if contains (lit "ROMANAI_FINAL") t
                         then if (0 <? length improved)%nat
                              then inr (strip improved) else inr draft
                         else inr draft
                     end)).
Proof.
  unfold self_eval_step, bind, get_self, call_llm, ret. tidy.
  destruct (enable_self_eval self) eqn:SE.
  - match goal with
    | |- context [llm ?m] => destruct (llm m) as [e|t] eqn:LE
    end; tidy.
    + eexists _, _. split; [reflexivity|]. tidy. repeat split.
      right. split; [reflexivity|]. eexists _, _.
      split; [|split]; cycle 1; [reflexivity|reflexivity|exact LE].
    + cbv zeta.
      destruct (contains (lit "ROMANAI_FINAL") t) eqn:C;
        [match goal with
         | |- context [(0 <? ?n)%nat] => destruct (0 <? n)%nat eqn:L
         end|];
        (eexists _, _; split; [reflexivity|]; tidy; repeat split;
         right; split; [reflexivity|]; eexists _, _;
         (split; [|split]); cycle 1;
         [ reflexivity
         | cbv beta iota zeta; rewrite ?C, ?L; reflexivity
         | exact LE ]).
  - eexists _, _. split; [reflexivity|]. tidy. repeat split. left. auto.
Qed.

Lemma add_frame env r c i m w :
  calls (snd (MemoryStore.add env r c i (m, w))) = calls w
  /\ tick (snd (MemoryStore.add env r c i (m, w))) = S (tick w)
  /\ readable (disk (snd (MemoryStore.add env r c i (m, w)))) = readable (disk w)
  /\ writable (disk (snd (MemoryStore.add env r c i (m, w)))) = writable (disk w).
Proof.
  unfold MemoryStore.add. cbn [snd].
  destruct (MemoryStoreFacts.append_disk_frame env
              (MemoryStore.new_item env (tick w) r c i)
              (mkWorld (disk w) (S (tick w)) (calls w))) as (T & C & R & W).
  rewrite T, C, R, W. auto.
Qed.

Lemma update_step_run env u final self w :
  let imp := if any_in [lit "important"; lit "remember"; lit "my name";
                        lit "my birthday"; lit "my project"] (lower u)
             then 0.8 else 0.4 in
  let mw := MemoryStore.add env (lit "assistant") final (imp * 0.8)
              (MemoryStore.add env (lit "user") u imp (memory self, w)) in
  update_step env u final (self, w)
  = (inr tt,
     (mk (name self)
         (state (_update_state_from_interaction env u final self))
         (fst mw) (enable_recursive self) (enable_multi_agent self)
         (enable_self_eval self)
         (deque_append (dialog_history self) (u, final)),
      snd mw)).
Proof.
  cbv zeta. unfold update_step, bind, modify_self, on_memory, ret. tidy.
  unfold _update_state_from_interaction. tidy.
  set (imp := if any_in _ _ then 0.8 else 0.4).
  destruct (MemoryStore.add env (lit "user") u imp (memory self, w))
    as [m1 w1]. tidy.
  destruct (MemoryStore.add env (lit "assistant") final (imp * 0.8) (m1, w1))
    as [m2 w2]. tidy.
  reflexivity.
Qed.

Lemma add_summary env c i m w :
  fst (MemoryStore.add env (lit "summary") c i (m, w))
  = MemoryStore.with_mid m
      (deque_append (MemoryStore.mid_term m)
         (MemoryStore.new_item env (tick w) (lit "summary") c i)).
Proof. reflexivity. Qed.

Ltac conjs := repeat match goal with |- _ /\ _ => split end.

Lemma summary_hook_run env llm self w :
  exists m' w' sl,
    summary_hook env llm (self, w) = (inr tt, (with_memory self m', w'))
    /\ MemoryStore.short_term m' = MemoryStore.short_term (memory self)
    /\ MemoryStore.long_term m' = MemoryStore.long_term (memory self)
    /\ calls w' = calls w ++ sl
    /\ Forall (fun x => site_of x = Summary /\ faithful llm x) sl
    /\ length sl
       = (if ((length (items (dialog_history self)) mod 6 =? 0)
              && (0 <? length (items (dialog_history self))))%nat
          then 1 else 0)%nat
    /\ (forall msgs s, In (Summary, msgs, inr s) sl -> strip s <> [] ->
        MemoryStore.mid_term m'
        = deque_append (MemoryStore.mid_term (memory self))
            (MemoryStore.new_item env (tick w) (lit "summary") (strip s)
               (py_max 0.7 0.5))).
Proof.
  destruct self as [nm st m er ema ese h].
  unfold summary_hook, bind, get_self. tidy.
  assert (Quiet : forall b : bool,
    exists m' w' sl,
      (inr tt : result unit, (mk nm st m er ema ese h, w))
      = (inr tt, (with_memory (mk nm st m er ema ese h) m', w'))
      /\ MemoryStore.short_term m' = MemoryStore.short_term m
      /\ MemoryStore.long_term m' = MemoryStore.long_term m
      /\ calls w' = calls w ++ sl
      /\ Forall (fun x => site_of x = Summary /\ faithful llm x) sl
      /\ length sl = 0%nat
      /\ (forall msgs s, In (Summary, msgs, inr s) sl -> strip s <> [] ->
          MemoryStore.mid_term m'
          = deque_append (MemoryStore.mid_term m)
              (MemoryStore.new_item env (tick w) (lit "summary") (strip s)
                 (py_max 0.7 0.5)))).
  { intros _. exists m, w, []. unfold with_memory. tidy. rewrite app_nil_r.
    conjs; auto. intros ? ? []. }
  destruct (length (items h) mod 6 =? 0)%nat eqn:E6; cbn [andb];
    [|exact (Quiet true)].
  unfold try_except, _summarize_recent, bind, get_self. tidy.
  destruct (items h) as [|turn turns] eqn:H; [exact (Quiet true)|].
  clear Quiet.
  cbn [length Nat.ltb Nat.leb]. unfold call_llm. tidy.
  match goal with |- context [llm ?msgs] => set (sm := msgs) end.
  destruct (llm sm) as [e|s] eqn:L.
  - exists m, (mkWorld (disk w) (tick w) (calls w ++ [(Summary, sm, inl e)])),
      [(Summary, sm, inl e)].
    unfold ret, with_memory. tidy. conjs; auto.
    + repeat constructor. unfold faithful. cbn. now rewrite L.
    + intros ? ? [X|[]]. discriminate X.
  - unfold ret. tidy.
    assert (Skip :
      strip s = [] ->
      exists m' w' sl,
        (inr tt : result unit,
         (mk nm st m er ema ese h,
          mkWorld (disk w) (tick w) (calls w ++ [(Summary, sm, inr s)])))
        = (inr tt, (with_memory (mk nm st m er ema ese h) m', w'))
        /\ MemoryStore.short_term m' = MemoryStore.short_term m
        /\ MemoryStore.long_term m' = MemoryStore.long_term m
        /\ calls w' = calls w ++ sl
        /\ Forall (fun x => site_of x = Summary /\ faithful llm x) sl
        /\ length sl = 1%nat
        /\ (forall msgs s0, In (Summary, msgs, inr s0) sl -> strip s0 <> [] ->
            MemoryStore.mid_term m'
            = deque_append (MemoryStore.mid_term m)
                (MemoryStore.new_item env (tick w) (lit "summary") (strip s0)
                   (py_max 0.7 0.5)))).
    { intro Z.
      exists m, (mkWorld (disk w) (tick w) (calls w ++ [(Summary, sm, inr s)])),
        [(Summary, sm, inr s)].
      unfold with_memory. tidy. conjs; auto.
      - repeat constructor. unfold faithful. cbn. now rewrite L.
      - intros ? ? [X|[]] N. injection X as _ <-. contradiction. }
    destruct s as [|c s']; [exact (Skip eq_refl)|].
    destruct (strip (c :: s')) as [|c2 text] eqn:S; [exact (Skip eq_refl)|].
    clear Skip. unfold on_memory, MemoryStore.promote_summary. tidy.
    match goal with
    | |- context [MemoryStore.add ?a ?b ?c ?d ?e] =>
        pose proof (add_summary a c d (fst e) (snd e)) as A1;
        destruct (add_frame a b c d (fst e) (snd e)) as (A2 & _);
        tidy;
        destruct (MemoryStore.add a b c d e) as [m1 w1]
    end.
    tidy. subst m1.
    exists (MemoryStore.with_mid m
              (deque_append (MemoryStore.mid_term m)
                 (MemoryStore.new_item env (tick w) (lit "summary")
                    (c2 :: text) (py_max 0.7 0.5)))), w1,
      [(Summary, sm, inr (c :: s'))].
    unfold with_memory. tidy. conjs; auto.
    + repeat constructor. unfold faithful. cbn. now rewrite L.
    + intros ? ? [X|[]] N. injection X as _ <-. rewrite S. reflexivity.
Qed.

Lemma new_calls_app w w' l : calls w' = calls w ++ l -> new_calls w w' = l.
Proof.
  intro E. unfold new_calls. rewrite E.
  rewrite skipn_app, skipn_all, Nat.sub_diag. reflexivity.
Qed.

Lemma council_early llm (cl : list entry) :
  (cl = [] \/ exists cm a, cl = [(Council, cm, inr a)] /\ llm cm = inr a) ->
  Forall (early llm) cl.
Proof.
  intros [->|(cm & a & -> & L)]; repeat constructor; try discriminate.
  - eexists; reflexivity.
  - unfold faithful. cbn. now rewrite L.
Qed.

Lemma update_step_calls env u final self w :
  calls (snd (snd (update_step env u final (self, w)))) = calls w.
Proof.
  rewrite update_step_run. cbv zeta. cbn [snd].
  set (imp := if any_in _ _ then 0.8 else 0.4).
  destruct (MemoryStore.add env (lit "user") u imp (memory self, w))
    as [ma wa] eqn:A.
  rewrite (proj1 (add_frame env _ _ _ ma wa)).
  apply (f_equal snd) in A. cbn [snd] in A. rewrite <- A.
  apply add_frame.
Qed.

Lemma generate_reply_run env u llm self w :
  let out := generate_reply env u llm (self, w) in
  (exists e pre site msgs,
      fst out = inl e
      /\ calls (snd (snd out)) = calls w ++ pre ++ [(site, msgs, inl e)]
      /\ site <> Summary
      /\ llm msgs = inl e
      /\ Forall (early llm) pre
      /\ fst (snd out) = self)
  \/
  (exists final cl dm d el sl w1 m',
      fst out = inr final
      /\ calls (snd (snd out))
         = calls w ++ cl ++ [(Draft, dm, inr d)] ++ el ++ sl
      /\ (cl = [] \/ exists cm a, cl = [(Council, cm, inr a)] /\ llm cm = inr a)
      /\ llm dm = inr d
      /\ ((enable_self_eval self = false /\ el = [] /\ final = strip d)
          \/ (enable_self_eval self = true /\ exists em t,
                el = [(SelfEval, em, inr t)]
                /\ llm em = inr t
                /\ (inr final : result str)
                   = let improved :=
                       strip_chars [" "%char; ":"%char; nl]
                         (skipn (index marker t + length marker)%nat t) in
                     if contains marker t
                     then if (0 <? length improved)%nat
                          then inr (strip improved) else inr (strip d)
                     else inr (strip d)))
      /\ Forall (fun x : entry => site_of x = Summary /\ faithful llm x) sl
      /\ (let h' := deque_append (dialog_history self) (u, final) in
          length sl
          = (if ((length (items h') mod 6 =? 0) && (0 <? length (items h')))%nat
             then 1 else 0)%nat)
      /\ disk w1 = disk w
      /\ (let imp := if any_in [lit "important"; lit "remember"; lit "my name";
                                lit "my birthday"; lit "my project"] (lower u)
                     then 0.8 else 0.4 in
          let mw := MemoryStore.add env (lit "assistant") final (imp * 0.8)
                      (MemoryStore.add env (lit "user") u imp (memory self, w1)) in
          fst (snd out)
          = mk (name self)
               (state (_update_state_from_interaction env u final self))
               m' (enable_recursive self) (enable_multi_agent self)
               (enable_self_eval self)
               (deque_append (dialog_history self) (u, final))
          /\ MemoryStore.short_term m' = MemoryStore.short_term (fst mw)
          /\ MemoryStore.long_term m' = MemoryStore.long_term (fst mw)
          /\ (forall msgs s, In (Summary, msgs, inr s) sl -> strip s <> [] ->
              MemoryStore.mid_term m'
              = deque_append (MemoryStore.mid_term (fst mw))
                  (MemoryStore.new_item env (tick (snd mw)) (lit "summary")
                     (strip s) (py_max 0.7 0.5))))).
Proof.
  cbv zeta. unfold generate_reply, bind.
  destruct (draft_step_cases env u llm self w)
    as (r1 & w1 & E1 & D1 & [(cm & e & MA & -> & LC & C1)
                            | (cl & dm & rd & CL & LD & C1 & ->)]);
    rewrite E1.
  - left. exists e, [], Council, cm. tidy. conjs; auto. discriminate.
  - destruct rd as [e|d].
    + left. exists e, cl, Draft, dm. tidy. conjs; auto; try discriminate.
      now apply council_early.
    + destruct (self_eval_step_cases u llm (strip d) self w1)
        as (r2 & w2 & E2 & D2 & T2 & [(SE & -> & C2)
                                    | (SE & em & rt & LE & C2 & ->)]);
        rewrite E2.
      * (* no self-evaluation *)
        pose proof (update_step_calls env u (strip d) self w2) as CM.
        rewrite (update_step_run env u (strip d) self w2) in *.
        cbv zeta in *.
        set (imp := if any_in _ _ then 0.8 else 0.4) in *.
        set (mw := MemoryStore.add env (lit "assistant") (strip d) (imp * 0.8)
                     (MemoryStore.add env (lit "user") u imp (memory self, w2)))
          in *.
        set (self3 := mk _ _ _ _ _ _ _) in *.
        destruct (summary_hook_run env llm self3 (snd mw))
          as (m' & w' & sl & E4 & S4 & L4 & C4 & F4 & N4 & M4).
        rewrite E4. unfold ret. tidy.
        right. exists (strip d), cl, dm, d, [], sl, w2, m'.
        subst self3. unfold with_memory in *. tidy.
        conjs; auto.
        -- rewrite C4, CM, C2, C1. rewrite <- !app_assoc. reflexivity.
        -- congruence.
      * destruct rt as [e|t].
        -- left. exists e, (cl ++ [(Draft, dm, inr d)]), SelfEval, em. tidy.
           conjs; auto; try discriminate.
           ++ rewrite C2, C1, <- !app_assoc. reflexivity.
           ++ apply Forall_app. split; [now apply council_early|].
              repeat constructor; try discriminate.
              ** eexists; reflexivity.
              ** unfold faithful. cbn. now rewrite LD.
        -- cbv beta iota zeta.
           set (improved := strip_chars _ _).
           destruct (contains (lit "ROMANAI_FINAL") t) eqn:EC;
             [destruct (0 <? length improved)%nat eqn:EL|];
             match goal with
             | |- context [update_step env u ?final (self, w2)] =>
                 pose proof (update_step_calls env u final self w2) as CM;
                 rewrite (update_step_run env u final self w2) in *;
                 cbv zeta in *;
                 set (imp := if any_in _ _ then 0.8 else 0.4) in *;
                 set (mw := MemoryStore.add env (lit "assistant") final (imp * 0.8)
                              (MemoryStore.add env (lit "user") u imp
                                 (memory self, w2))) in *;
                 set (self3 := mk _ _ _ _ _ _ _) in *;
                 destruct (summary_hook_run env llm self3 (snd mw))
                   as (m' & w' & sl & E4 & S4 & L4 & C4 & F4 & N4 & M4);
                 rewrite E4; unfold ret; tidy;
                 right;
                 exists final, cl, dm, d, [(SelfEval, em, inr t)], sl, w2, m';
                 subst self3; unfold with_memory in *; tidy;
                 conjs; auto;
                 [ rewrite C4, CM, C2, C1; rewrite <- !app_assoc; reflexivity
                 | right; split; [exact SE|]; exists em, t;
                   split; [reflexivity|]; split; [exact LE|];
                   unfold marker; fold improved; rewrite ?EC, ?EL; reflexivity
                 | congruence ]
             end.
Qed.

Lemma in_council (llm : llm_func) (cl : list entry) (x : entry) :
  (cl = [] \/ exists cm a, cl = [(Council, cm, inr a)] /\ llm cm = inr a) ->
  In x cl -> exists cm a, x = (Council, cm, inr a) /\ llm cm = inr a.
Proof.
  intros [->|(cm & a & -> & L)] [].
  - subst x. eauto.
  - contradiction.
Qed.

Lemma init_unreadable env a b w :
  readable (disk w) = false ->
  MemoryStore.init env a b w
  = (MemoryStore.mk (mkDeque a []) (mkDeque b []) [], w).
Proof.
  intro R. unfold MemoryStore.init, MemoryStore._load_from_disk, fs_open.
  destruct (log (disk w)); [now rewrite R | reflexivity].
Qed.

(** C5.  [generate_reply] raises an exception exactly when the injected
    function raised at the council call, the draft call or the self-eval
    call of that turn, and then it raises that exception.  A turn whose
    only raising call is the summarization call returns an answer; this
    holds in every world, whatever the state of the log file, because
    [_append_disk] swallows a failed append and the constructor's log load
    swallows a failed read (an unreadable log gives the empty store).  The
    record of calls used to say so is faithful to the function. *)
Theorem generate_reply_raises_iff env u llm self w :
  let out := generate_reply env u llm (self, w) in
  let new := new_calls w (snd (snd out)) in
  Forall (faithful llm) new
  /\ (forall e, fst out = inl e <->
                exists site msgs, site <> Summary /\ In (site, msgs, inl e) new)
  /\ ((forall site msgs e, In (site, msgs, inl e) new -> site = Summary) ->
      exists answer, fst out = inr answer)
  /\ (forall item w1, writable (disk w1) = false ->
                      MemoryStore._append_disk env item w1 = w1)
  /\ (forall a b w1, readable (disk w1) = false ->
                     MemoryStore.init env a b w1
                     = (MemoryStore.mk (mkDeque a []) (mkDeque b []) [], w1)).
Proof.
  cbv zeta.
  split; [|split; [|split; [|split]]];
    [| | |apply MemoryStoreFacts.append_disk_unwritable
         |apply init_unreadable];
  destruct (generate_reply_run env u llm self w)
    as [(e0 & pre & site & msgs & R & C & NS & L & P & _)
       |(final & cl & dm & d & el & sl & w1 & m' & R & C & CL & LD & EV & SL & _)];
    cbv zeta in *; rewrite ?(new_calls_app _ _ _ C), ?R.
  - apply Forall_app. split.
    + eapply Forall_impl; [|exact P]. intros x (_ & _ & _ & F). exact F.
    + repeat constructor. unfold faithful. cbn. now rewrite L.
  - apply Forall_app. split; [|constructor; [|apply Forall_app; split]].
    + eapply Forall_impl; [|exact (council_early llm cl CL)].
      intros x (_ & _ & _ & F). exact F.
    + unfold faithful. cbn. now rewrite LD.
    + destruct EV as [(_ & -> & _)|(_ & em & t & -> & LE & _)];
        repeat constructor. unfold faithful. cbn. now rewrite LE.
    + eapply Forall_impl; [|exact SL]. intros x [_ F]. exact F.
  - intro e. split.
    + intro E. injection E as <-. exists site, msgs. split; [exact NS|].
      apply in_or_app. right. now left.
    + intros (site' & msgs' & _ & I). apply in_app_or in I.
      destruct I as [I|[I|[]]].
      * rewrite Forall_forall in P. destruct (P _ I) as (_ & _ & [s A] & _).
        discriminate A.
      * injection I as _ _ <-. reflexivity.
  - intro e. split; [discriminate|].
    intros (site' & msgs' & NS & I). exfalso.
    apply in_app_or in I. cbn [app] in I. destruct I as [I|[I|I]].
    + destruct (in_council llm cl _ CL I) as (cm & a & X & _). discriminate X.
    + discriminate I.
    + apply in_app_or in I. destruct I as [I|I].
      * destruct EV as [(_ & -> & _)|(_ & em & t & -> & _)];
          [destruct I | destruct I as [I|[]]; discriminate I].
      * rewrite Forall_forall in SL. destruct (SL _ I) as [S _].
        apply NS. exact S.
  - intro H. exfalso. apply NS.
    apply (H site msgs e0). apply in_or_app. right. now left.
  - intros _. eauto.
Qed.

Lemma starts_with_app (p s : str) :
  starts_with p s = true -> s = p ++ skipn (length p) s.
Proof.
  revert s. induction p as [|c p IH]; intros [|d s]; cbn; try easy.
  rewrite andb_true_iff, Ascii.eqb_eq. intros [-> H]. f_equal. now apply IH.
Qed.

(** [index] is where the first occurrence starts. *)
Lemma find_first (sub s : str) (i : nat) :
  find sub s = Some i ->
  starts_with sub (skipn i s) = true
  /\ forall j, (j < i)%nat -> starts_with sub (skipn j s) = false.
Proof.
  revert i. induction s as [|c s IH]; intro i.
  - cbn [find]. destruct (starts_with sub []) eqn:E; [|discriminate].
    intro H. injection H as <-. split; [exact E|]. intros j L. lia.
  - cbn [find]. destruct (starts_with sub (c :: s)) eqn:E.
    + intro H. injection H as <-. split; [exact E|]. intros j L. lia.
    + destruct (find sub s) as [k|]; [|discriminate].
      cbn [option_map]. intro H. injection H as <-.
      destruct (IH k eq_refl) as [A B]. split; [exact A|].
      intros [|j] L; [exact E|]. cbn [skipn]. apply B. lia.
Qed.

Lemma contains_split (sub s : str) :
  contains sub s = true ->
  s = firstn (index sub s) s ++ sub
      ++ skipn (index sub s + length sub) s.
Proof.
  unfold contains, index. destruct (find sub s) as [i|] eqn:F; [|discriminate].
  intros _. destruct (find_first sub s i F) as [A _].
  rewrite <- (firstn_skipn i s) at 1. f_equal.
  rewrite (starts_with_app sub (skipn i s) A) at 1. f_equal.
  rewrite skipn_skipn. f_equal. lia.
Qed.

(** C4 (as amended).  With self-evaluation enabled, let [d] be what the
    draft call answered and [t] what the self-eval call answered.  If [t]
    does not contain ROMANAI_FINAL the turn returns the stripped draft.  If
    it does, [t] splits at the marker's first occurrence, and with
    [improved] the text after it stripped of ' ', ':' and newline at both
    ends: an empty [improved] gives the stripped draft, and an [improved]
    that is not blank gives [improved] with the whitespace at both ends
    removed. *)
Theorem self_eval_marker_extraction env u llm self w :
  enable_self_eval self = true ->
  let out := generate_reply env u llm (self, w) in
  let new := new_calls w (snd (snd out)) in
  forall dm d em t,
    In (Draft, dm, inr d) new ->
    In (SelfEval, em, inr t) new ->
    let draft := strip d in
    let rest := skipn (index marker t + length marker) t in
    let improved := strip_chars [" "%char; ":"%char; nl] rest in
    (contains marker t = false -> fst out = inr draft)
    /\ (contains marker t = true ->
        t = firstn (index marker t) t ++ marker ++ rest
        /\ (forall j, (j < index marker t)%nat ->
                      starts_with marker (skipn j t) = false)
        /\ (improved = [] -> fst out = inr draft)
        /\ (strip improved <> [] -> fst out = inr (strip improved))).
Proof.
  intros SE. cbv zeta. intros dm d em t ID IE.
  destruct (generate_reply_run env u llm self w)
    as [(e0 & pre & site & msgs & R & C & NS & L & P & _)
       |(final & cl & dm0 & d0 & el & sl & w1 & m' & R & C & CL & LD & EV & SL & _)];
    cbv zeta in *; rewrite (new_calls_app _ _ _ C) in ID, IE.
  - exfalso. apply in_app_or in IE. destruct IE as [I|[I|[]]].
    + rewrite Forall_forall in P. destruct (P _ I) as (_ & N & _).
      now apply N.
    + discriminate I.
  - assert (Hd : d = d0).
    { apply in_app_or in ID. cbn [app] in ID. destruct ID as [I|[I|I]].
      - destruct (in_council llm cl _ CL I) as (cm & a & X & _). discriminate X.
      - now injection I.
      - apply in_app_or in I. destruct I as [I|I].
        + destruct EV as [(_ & -> & _)|(_ & em1 & t1 & -> & _)];
            [destruct I | destruct I as [I|[]]; discriminate I].
        + rewrite Forall_forall in SL. destruct (SL _ I) as [S _].
          discriminate S. }
    subst d0.
    destruct EV as [(F & _)|(_ & em1 & t1 & -> & LE & EF)]; [congruence|].
    assert (Ht : t = t1).
    { apply in_app_or in IE. cbn [app] in IE. destruct IE as [I|[I|[I|I]]].
      - destruct (in_council llm cl _ CL I) as (cm & a & X & _). discriminate X.
      - discriminate I.
      - now injection I.
      - rewrite Forall_forall in SL. destruct (SL _ I) as [S _].
        discriminate S. }
    subst t1. rewrite R.
    split.
    + intro NC. rewrite NC in EF. now rewrite EF.
    + intro YC. rewrite YC in EF.
      split; [apply (contains_split marker t YC)|].
      split.
      { unfold contains in YC. unfold index.
        destruct (find marker t) as [i|] eqn:F; [|discriminate].
        apply (find_first marker t i F). }
      split.
      * intro Z. rewrite Z in EF. cbn in EF. now rewrite EF.
      * intro NZ.
        destruct (strip_chars [" "%char; ":"%char; nl]
                    (skipn (index marker t + length marker) t)) as [|c r] eqn:I.
        -- exfalso. apply NZ. reflexivity.
        -- cbn [length Nat.ltb Nat.leb] in EF. now rewrite EF.
Qed.

Lemma deque_append_length {A} (d : deque A) (v : A) :
  length (items (deque_append d v))
  = Nat.min (length (items d) + 1) (maxlen d).
Proof.
  unfold deque_append. cbn [items]. rewrite length_skipn, length_app.
  cbn [length]. lia.
Qed.

Lemma total_llm_run env u g self w :
  let llm := total_llm g in
  let out := generate_reply env u llm (self, w) in
  exists final cl dm d el sl m',
    fst out = inr final
    /\ new_calls w (snd (snd out)) = cl ++ [(Draft, dm, inr d)] ++ el ++ sl
    /\ Forall (fun x : entry => site_of x <> Summary) (cl ++ [(Draft, dm, inr d)] ++ el)
    /\ Forall (fun x : entry => site_of x = Summary /\ faithful llm x) sl
    /\ (let h' := deque_append (dialog_history self) (u, final) in
        length sl
        = (if ((length (items h') mod 6 =? 0) && (0 <? length (items h')))%nat
           then 1 else 0)%nat)
    /\ (exists w1,
        let imp := if any_in [lit "important"; lit "remember"; lit "my name";
                              lit "my birthday"; lit "my project"] (lower u)
                   then 0.8 else 0.4 in
        let mw := MemoryStore.add env (lit "assistant") final (imp * 0.8)
                    (MemoryStore.add env (lit "user") u imp (memory self, w1)) in
        fst (snd out)
        = mk (name self)
             (state (_update_state_from_interaction env u final self))
             m' (enable_recursive self) (enable_multi_agent self)
             (enable_self_eval self)
             (deque_append (dialog_history self) (u, final))
        /\ MemoryStore.short_term m' = MemoryStore.short_term (fst mw)
        /\ MemoryStore.long_term m' = MemoryStore.long_term (fst mw)
        /\ (forall msgs s, In (Summary, msgs, inr s) sl -> strip s <> [] ->
            MemoryStore.mid_term m'
            = deque_append (MemoryStore.mid_term (fst mw))
                (MemoryStore.new_item env (tick (snd mw)) (lit "summary")
                   (strip s) (py_max 0.7 0.5)))).
Proof.
  cbv zeta.
  destruct (generate_reply_run env u (total_llm g) self w)
    as [(e0 & pre & site & msgs & R & C & NS & L & P & _)
       |(final & cl & dm & d & el & sl & w1 & m' & R & C & CL & LD & EV & SL
         & N & D & K)];
    cbv zeta in *.
  - discriminate L.
  - exists final, cl, dm, d, el, sl, m'.
    split; [exact R|]. split; [exact (new_calls_app _ _ _ C)|].
    split.
    { apply Forall_app. split.
      - eapply Forall_impl; [|exact (council_early _ cl CL)].
        intros x (S & _). exact S.
      - constructor; [discriminate|].
        destruct EV as [(_ & -> & _)|(_ & em & t & -> & _)];
          repeat constructor. discriminate. }
    split; [exact SL|]. split; [exact N|].
    exists w1. exact K.
Qed.

Lemma summary_attempts_app (a b : list entry) :
  summary_attempts (a ++ b) = (summary_attempts a + summary_attempts b)%nat.
Proof. unfold summary_attempts. now rewrite filter_app, length_app. Qed.

Lemma summary_attempts_none (l : list entry) :
  Forall (fun x : entry => site_of x <> Summary) l -> summary_attempts l = 0%nat.
Proof.
  unfold summary_attempts. induction 1 as [|x l N _ IH]; [reflexivity|].
  cbn [filter]. destruct (site_of x); cbn; try exact IH. now elim N.
Qed.

Lemma summary_attempts_all (llm : llm_func) (l : list entry) :
  Forall (fun x : entry => site_of x = Summary /\ faithful llm x) l ->
  summary_attempts l = length l.
Proof.
  unfold summary_attempts. induction 1 as [|x l [S _] _ IH]; [reflexivity|].
  cbn [filter]. rewrite S. cbn. now rewrite IH.
Qed.

(** An [add] under a role other than "summary" leaves mid_term alone. *)
Lemma add_keeps_mid env r c i m w :
  str_eqb r (lit "summary") = false ->
  MemoryStore.mid_term (fst (MemoryStore.add env r c i (m, w)))
  = MemoryStore.mid_term m.
Proof.
  intro N. unfold MemoryStore.add. cbn [fst]. rewrite N.
  destruct (Qle_bool 0.7 i); reflexivity.
Qed.

Lemma turn_history env u g self w :
  let st' := snd (generate_reply env u (total_llm g) (self, w)) in
  maxlen (dialog_history (fst st')) = maxlen (dialog_history self)
  /\ length (items (dialog_history (fst st')))
     = Nat.min (length (items (dialog_history self)) + 1)
         (maxlen (dialog_history self)).
Proof.
  cbv zeta.
  destruct (total_llm_run env u g self w)
    as (final & cl & dm & d & el & sl & m' & _ & _ & _ & _ & _ & w1 & K).
  cbv zeta in K. destruct K as (E & _). rewrite E. cbn [dialog_history].
  split; [reflexivity|apply deque_append_length].
Qed.

Lemma run_turns_history env g texts :
  forall st,
    (length (items (dialog_history (fst st)))
     <= maxlen (dialog_history (fst st)))%nat ->
    let st' := run_turns env (total_llm g) texts st in
    maxlen (dialog_history (fst st')) = maxlen (dialog_history (fst st))
    /\ length (items (dialog_history (fst st')))
       = Nat.min (length (items (dialog_history (fst st))) + length texts)
           (maxlen (dialog_history (fst st))).
Proof.
  induction texts as [|u rest IH]; intros [self w] B; cbv zeta.
  - cbn [run_turns length fst] in *. split; [reflexivity|lia].
  - cbn [run_turns length].
    destruct (turn_history env u g self w) as [M1 L1]. cbv zeta in M1, L1.
    cbn [fst] in B.
    destruct (IH (snd (generate_reply env u (total_llm g) (self, w))))
      as [M2 L2]; [rewrite M1, L1; lia|]. cbv zeta in M2, L2.
    cbn [fst]. rewrite M2, L2, M1, L1. split; [reflexivity|lia].
Qed.

Lemma init_history env nm er ema ese w0 :
  dialog_history (fst (init env nm er ema ese w0)) = mkDeque 64 [].
Proof.
  unfold init. destruct (MemoryStore.init env 32 64 w0). reflexivity.
Qed.

(** C6.  What the code does on the [n]-th consecutive turn of a freshly
    constructed engine with a function that always answers: the number of
    summarization attempts is 1 when [min(n, 64)] is a multiple of 6 and 0
    otherwise, because the hook tests the length of a history that stops
    growing at 64 entries.  So turns 6, 12, ..., 60 summarize and turn 66
    (a multiple of 6) does not.  An attempt whose answer is not blank adds
    one summary entry to mid_term. *)
Theorem summary_hook_schedule env g nm er ema ese w0 texts u :
  let llm := total_llm g in
  let st := run_turns env llm texts (init env nm er ema ese w0) in
  let out := generate_reply env u llm st in
  let new := new_calls (snd st) (snd (snd out)) in
  let n := S (length texts) in
  summary_attempts new = (if (Nat.min n 64 mod 6 =? 0)%nat then 1 else 0)%nat
  /\ (n = 66%nat -> summary_attempts new = 0%nat)
  /\ (forall msgs s,
        In (Summary, msgs, inr s) new -> strip s <> [] ->
        exists k,
          MemoryStore.mid_term (memory (fst (snd out)))
          = deque_append (MemoryStore.mid_term (memory (fst st)))
              (mkItem (utcnow env k) (lit "summary") (strip s) 0.7)).
Proof.
  cbv zeta.
  set (st := run_turns env (total_llm g) texts (init env nm er ema ese w0)).
  destruct (run_turns_history env g texts (init env nm er ema ese w0))
    as [M L]; [rewrite init_history; cbn; lia|].
  cbv zeta in M, L. fold st in M, L.
  rewrite init_history in M, L. cbn [maxlen items length] in M, L.
  destruct st as [self w] eqn:Est. cbn [fst snd] in *.
  destruct (total_llm_run env u g self w)
    as (final & cl & dm & d & el & sl & m' & R & C & NS & SL & N & w1 & K).
  cbv zeta in *.
  assert (A : summary_attempts (new_calls w (snd (snd (generate_reply env u (total_llm g) (self, w)))))
              = (if (Nat.min (S (length texts)) 64 mod 6 =? 0)%nat then 1 else 0)%nat).
  { rewrite C.
    replace (cl ++ [(Draft, dm, inr d)] ++ el ++ sl)
      with ((cl ++ [(Draft, dm, inr d)] ++ el) ++ sl)
      by (rewrite <- !app_assoc; reflexivity).
    rewrite summary_attempts_app, (summary_attempts_none _ NS),
      (summary_attempts_all _ _ SL).
    cbn [Nat.add]. etransitivity; [exact N|].
    rewrite deque_append_length, M, L.
    replace (Nat.min (Nat.min (0 + length texts) 64 + 1) 64)
      with (Nat.min (S (length texts)) 64) by lia.
    destruct (Nat.min (S (length texts)) 64) eqn:X; [lia|].
    cbn [Nat.ltb Nat.leb]. rewrite andb_true_r. reflexivity. }
  split; [exact A|]. split.
  - intro E66. rewrite A. injection E66 as ->. reflexivity.
  - intros msgs s I NZ. destruct K as (E & _ & _ & MID). rewrite E.
    cbn [memory]. rewrite C in I.
    assert (Isl : In (Summary, msgs, inr s) sl).
    { replace (cl ++ [(Draft, dm, inr d)] ++ el ++ sl)
        with ((cl ++ [(Draft, dm, inr d)] ++ el) ++ sl) in I
        by (rewrite <- !app_assoc; reflexivity).
      apply in_app_or in I. destruct I as [I|I]; [|exact I].
      rewrite Forall_forall in NS. now elim (NS _ I). }
    rewrite (MID msgs s Isl NZ).
    eexists. f_equal; [|reflexivity].
    set (imp := if any_in _ _ then 0.8 else 0.4).
    destruct (MemoryStore.add env (lit "user") u imp (memory self, w1))
      as [ma wa] eqn:Ea.
    rewrite (add_keeps_mid env (lit "assistant") final (imp * 0.8) ma wa eq_refl).
    apply (f_equal fst) in Ea. cbn [fst] in Ea. rewrite <- Ea.
    apply (add_keeps_mid env (lit "user") u imp (memory self) w1 eq_refl).
Qed.

Lemma sad_text_keywords :
  any_in [lit "sad"; lit "scared"; lit "afraid"; lit "lonely"; lit "hurt"]
    (lower sad_text) = true
  /\ any_in [lit "idea"; lit "story"; lit "creative"; lit "brainstorm"]
       (lower sad_text) = false
  /\ any_in [lit "important"; lit "remember"; lit "my name";
             lit "my birthday"; lit "my project"] (lower sad_text) = false.
Proof. repeat split; vm_compute; reflexivity. Qed.

(** Empathy after the state update of the scenario's turn: raised, clamped
    by the rotation, then relaxed. *)
Lemma empathy_after_sad_update env answer self :
  SpacetimeState.x
    (state (_update_state_from_interaction env sad_text answer self))
  = let x1 := py_min 1.0 (SpacetimeState.x (state self) + 0.08) in
    py_max 0.0 (py_min 1.0 x1) + (0.55 - py_max 0.0 (py_min 1.0 x1)) * 0.02.
Proof.
  unfold _update_state_from_interaction.
  destruct sad_text_keywords as (K1 & K2 & _). rewrite K1, K2.
  destruct (contains (lit "sorry") (lower answer)); reflexivity.
Qed.

(** C7 (as amended).  For the user text "I feel so sad and lonely today",
    a prior empathy [x0] in [0,1] and a function that always answers, the
    empathy after the turn is [x1 + (0.55 - x1) * 0.02] with
    [x1 = min(1, x0 + 0.08)]: the raise by 0.08 is followed by the turn's
    closing relaxation.  It is strictly above [x0] whenever [x0 < 0.991].
    The turn appends a user entry with importance 0.4, then the assistant
    entry, to short_term. *)
Theorem sad_turn_effect env g self w :
  0 <= SpacetimeState.x (state self) ->
  SpacetimeState.x (state self) <= 1 ->
  let out := generate_reply env sad_text (total_llm g) (self, w) in
  let x0 := SpacetimeState.x (state self) in
  let x1 := py_min 1.0 (x0 + 0.08) in
  let x' := SpacetimeState.x (state (fst (snd out))) in
  x' == x1 + (0.55 - x1) * 0.02
  /\ (x0 < 0.991 -> x0 < x')
  /\ exists k answer,
       fst out = inr answer
       /\ MemoryStore.short_term (memory (fst (snd out)))
          = deque_append
              (deque_append (MemoryStore.short_term (memory self))
                 (mkItem (utcnow env k) (lit "user") sad_text 0.4))
              (mkItem (utcnow env (S k)) (lit "assistant") answer 0.32).
Proof.
  intros L U. cbv zeta.
  destruct (total_llm_run env sad_text g self w)
    as (final & cl & dm & d & el & sl & m' & R & _ & _ & _ & _ & w1 & K).
  cbv zeta in K. destruct K as (E & SH & _).
  rewrite E. cbn [state memory].
  assert (X : SpacetimeState.x
                (state (_update_state_from_interaction env sad_text final self))
              == py_min 1.0 (SpacetimeState.x (state self) + 0.08)
                 + (0.55 - py_min 1.0 (SpacetimeState.x (state self) + 0.08))
                   * 0.02).
  { rewrite empathy_after_sad_update. cbv zeta.
    rewrite (clamp01_id (py_min 1.0 (SpacetimeState.x (state self) + 0.08))).
    - reflexivity.
    - destruct (py_min_cases 1.0 (SpacetimeState.x (state self) + 0.08))
        as [[_ ->]|[_ ->]]; lra.
    - destruct (py_min_cases 1.0 (SpacetimeState.x (state self) + 0.08))
        as [[H ->]|[H ->]]; lra. }
  split; [exact X|]. split.
  - intro B. rewrite X.
    destruct (py_min_cases 1.0 (SpacetimeState.x (state self) + 0.08))
      as [[H ->]|[H ->]]; lra.
  - exists (tick w1), final. split; [exact R|].
    rewrite SH. destruct sad_text_keywords as (_ & _ & K3). rewrite K3.
    unfold MemoryStore.add, MemoryStore._append_disk, fs_append.
    cbn [disk tick calls writable].
    destruct (writable (disk w1)); reflexivity.
Qed.

(** ** Engine: concrete runs *)

Lemma generate_reply_raises_iff_witness :
  fst (generate_reply Demo.env (lit "hi") Demo.failing_llm Demo.fresh)
  = inl (Exception (lit "boom")).
Proof.
  apply (proj2 (proj1 (proj2 (generate_reply_raises_iff Demo.env (lit "hi")
                                Demo.failing_llm (fst Demo.fresh) (snd Demo.fresh)))
                 (Exception (lit "boom")))).
  exists Council. eexists. split; [discriminate|].
  vm_compute. left. reflexivity.
Defined.

Lemma self_eval_marker_extraction_witness :
  fst (generate_reply Demo.env (lit "hi") Demo.critic_llm Demo.fresh)
  = inr (lit "improved text").
Proof.
  pose proof (self_eval_marker_extraction Demo.env (lit "hi") Demo.critic_llm
                (fst Demo.fresh) (snd Demo.fresh) eq_refl) as H.
  cbv zeta in H.
  evar (dm : list Message). evar (em : list Message).
  destruct (H dm (lit "  a draft  ") em Demo.review) as [_ H2]; subst dm em.
  - vm_compute. right. left. reflexivity.
  - vm_compute. right. right. left. reflexivity.
  - destruct (H2 eq_refl) as (_ & _ & _ & H3).
    apply H3. vm_compute. discriminate.
Defined.

(** C4 as stated fails: the text after the marker loses its trailing
    ' ', ':', newline and whitespace as well as its leading ones.  For a
    review that ends in a newline the turn returns "improved text", not
    the text with only its leading characters removed. *)
Lemma trailing_text_is_stripped_too :
  let out := generate_reply Demo.env (lit "hi") Demo.critic_llm Demo.fresh in
  (exists em, In (SelfEval, em, inr Demo.review) (calls (snd (snd out))))
  /\ contains marker Demo.review = true
  /\ leading_stripped Demo.review = lit "improved text" ++ [nl]
  /\ fst out = inr (lit "improved text")
  /\ fst out <> inr (leading_stripped Demo.review).
Proof.
  cbv zeta. split; [|split; [|split; [|split]]].
  - eexists. vm_compute. right. right. left. reflexivity.
  - vm_compute. reflexivity.
  - vm_compute. reflexivity.
  - vm_compute. reflexivity.
  - vm_compute. discriminate.
Qed.

Lemma summary_hook_schedule_witness :
  let st := run_turns Demo.env (total_llm Demo.echo) (repeat (lit "hi") 65)
              Demo.fresh in
  summary_attempts
    (new_calls (snd st)
       (snd (snd (generate_reply Demo.env (lit "hi") (total_llm Demo.echo) st))))
  = 0%nat.
Proof.
  cbv zeta.
  apply (proj1 (proj2 (summary_hook_schedule Demo.env Demo.echo (lit "RomanAI")
                         true true true Demo.empty_world
                         (repeat (lit "hi") 65) (lit "hi")))).
  reflexivity.
Defined.

Lemma sad_turn_effect_witness :
  0.55 < SpacetimeState.x
           (state (fst (snd (generate_reply Demo.env sad_text
                               (total_llm Demo.echo) Demo.fresh)))).
Proof.
  refine (proj1 (proj2 (sad_turn_effect Demo.env Demo.echo (fst Demo.fresh)
                          (snd Demo.fresh) _ _)) _).
  - vm_compute. discriminate.
  - vm_compute. discriminate.
  - vm_compute. reflexivity.
Defined.

(** C7 as stated fails: on a fresh engine (empathy 0.55) with the fake
    LLM of the demo, the empathy after the turn is 0.6284, not
    [min(1, 0.55 + 0.08) = 0.63]; the relaxation that closes the state
    update takes back 2% of the distance to 0.55. *)
Lemma empathy_gain_is_not_0_08 :
  let out := generate_reply Demo.env sad_text Demo.fake_llm Demo.fresh in
  SpacetimeState.x (state (fst Demo.fresh)) == 0.55
  /\ SpacetimeState.x (state (fst (snd out))) == 0.6284
  /\ ~ SpacetimeState.x (state (fst (snd out))) == py_min 1.0 (0.55 + 0.08)
  /\ exists answer, fst out = inr answer.
Proof.
  cbv zeta. split; [|split; [|split]].
  - vm_compute. reflexivity.
  - vm_compute. reflexivity.
  - vm_compute. discriminate.
  - eexists. vm_compute. reflexivity.
Qed.

(** A review whose text after the marker is a lone tab passes the
    [len(improved) > 0] test and is then stripped to nothing: the turn
    returns the empty string instead of the draft. *)
Lemma blank_review_gives_empty_answer :
  fst (generate_reply Demo.env (lit "hi") Demo.blank_critic_llm Demo.fresh)
  = inr [].
Proof. vm_compute. reflexivity. Qed.

(** * Further properties *)

(** ** Further properties of the state vector *)

(** X2.  [clamp] is idempotent: clamping a clamped state changes no
    field. *)
Theorem clamp_idempotent (s : SpacetimeState.t) (f : SpacetimeState.field) :
  SpacetimeState.get f (SpacetimeState.clamp (SpacetimeState.clamp s))
  == SpacetimeState.get f (SpacetimeState.clamp s).
Proof.
  rewrite (SpacetimeStateFacts.get_clamp f (SpacetimeState.clamp s)).
  destruct (SpacetimeStateFacts.clamp_in_range s f) as [L U].
  now apply clamp01_id.
Qed.

(** X3.  A rotation by an angle whose cosine is 1 and whose sine is 0
    leaves every field of a state in [0,1] as it was, whatever the two
    attribute names, also when they are the same name. *)
Theorem rotate_by_null_angle (cos sin : Q -> Q) (a b : str) (theta : Q)
  (s s' : SpacetimeState.t) :
  cos theta == 1 -> sin theta == 0 ->
  SpacetimeState.in_range s ->
  SpacetimeState.rotate_plane cos sin a b theta s = Some s' ->
  forall f, SpacetimeState.get f s' == SpacetimeState.get f s.
Proof.
  intros C S R E f. unfold SpacetimeState.rotate_plane in E.
  destruct (SpacetimeState.field_of_name a) as [fa|]; [|discriminate].
  destruct (SpacetimeState.field_of_name b) as [fb|]; [|discriminate].
  injection E as <-. rewrite SpacetimeStateFacts.get_clamp.
  assert (V : SpacetimeState.get f
                (SpacetimeState.set fb
                   (SpacetimeState.get fa s * sin theta
                    + SpacetimeState.get fb s * cos theta)
                   (SpacetimeState.set fa
                      (SpacetimeState.get fa s * cos theta
                       - SpacetimeState.get fb s * sin theta) s))
              == SpacetimeState.get f s).
  { destruct (SpacetimeStateFacts.field_eq_dec f fb) as [->|Nb].
    - rewrite SpacetimeStateFacts.get_set_same, C, S. ring.
    - rewrite SpacetimeStateFacts.get_set_other by exact Nb.
      destruct (SpacetimeStateFacts.field_eq_dec f fa) as [->|Na].
      + rewrite SpacetimeStateFacts.get_set_same, C, S. ring.
      + now rewrite SpacetimeStateFacts.get_set_other. }
  destruct (R f) as [L U].
  rewrite clamp01_id; [exact V| |]; rewrite V; assumption.
Qed.

Lemma rotate_by_null_angle_witness :
  exists s',
    SpacetimeState.rotate_plane Demo.cos_series Demo.sin_series
      (lit "w") (lit "x") 0 SpacetimeState.default = Some s'
    /\ forall f, SpacetimeState.get f s'
                 == SpacetimeState.get f SpacetimeState.default.
Proof.
  eexists. split; [reflexivity|].
  apply (rotate_by_null_angle Demo.cos_series Demo.sin_series
           (lit "w") (lit "x") 0 SpacetimeState.default).
  - reflexivity.
  - reflexivity.
  - exact default_in_range.
  - reflexivity.
Defined.

(** ** Further properties of the memory store *)

Lemma last_n_short {A} (c : nat) (l : list A) :
  (length l <= c)%nat -> last_n c l = l.
Proof.
  intro H. unfold last_n. replace (length l - c)%nat with 0%nat by lia.
  reflexivity.
Qed.

Lemma last_n_length {A} (c : nat) (l : list A) :
  length (last_n c l) = Nat.min c (length l).
Proof. unfold last_n. rewrite length_skipn. lia. Qed.

Lemma last_n_drop_prefix {A} (c : nat) (pre x : list A) :
  (c <= length x)%nat -> last_n c (pre ++ x) = last_n c x.
Proof.
  intro H. unfold last_n. rewrite length_app, skipn_app.
  rewrite skipn_all2 by lia. cbn [app]. f_equal. lia.
Qed.

Lemma last_n_absorb {A} (c : nat) (l r : list A) :
  last_n c (last_n c l ++ r) = last_n c (l ++ r).
Proof.
  destruct (Nat.le_gt_cases (length l) c) as [H|H].
  - now rewrite (last_n_short c l H).
  - rewrite <- (firstn_skipn (length l - c) l) at 2.
    rewrite <- app_assoc. fold (last_n c l).
    symmetry. apply last_n_drop_prefix.
    rewrite length_app, last_n_length. lia.
Qed.

Lemma deque_append_last_n {A} (d : deque A) (v : A) :
  items (deque_append d v) = last_n (maxlen d) (items d ++ [v]).
Proof. reflexivity. Qed.

(** [add] in terms of the tier of the stored item. *)
Lemma add_by_tier env r c i m w :
  let item := MemoryStore.new_item env (tick w) r c i in
  fst (MemoryStore.add env r c i (m, w))
  = match tier_of item with
    | MidTerm =>
        MemoryStore.with_mid m (deque_append (MemoryStore.mid_term m) item)
    | LongTerm =>
        MemoryStore.with_long m (MemoryStore.long_term m ++ [item])
    | ShortTerm =>
        MemoryStore.with_short m (deque_append (MemoryStore.short_term m) item)
    end.
Proof.
  cbv zeta. unfold MemoryStore.add, tier_of. cbn [fst role importance
    MemoryStore.new_item mkItem py_eq_str py_ge].
  rewrite clamp01_threshold.
  destruct (str_eqb r (lit "summary")); [reflexivity|].
  destruct (Qle_bool 0.7 i); reflexivity.
Qed.

Lemma add_tick env r c i m w :
  tick (snd (MemoryStore.add env r c i (m, w))) = S (tick w).
Proof. apply add_frame. Qed.

(** X4.  After any sequence of [add] calls on a store within its
    capacities, the short-term queue holds the last [maxlen] of its old
    items followed by the new items that are neither summaries nor of
    importance 0.7 and more, the mid-term queue the last [maxlen] of its
    old items followed by the new summaries, and the long-term list its old
    items followed by every other new item of importance 0.7 and more:
    long-term memory never forgets, the queues drop their oldest items. *)
Theorem tiers_hold_latest_routed_items
  (env : Env) (adds : list add_args) (m : MemoryStore.t) (w : World) :
  within_capacity m ->
  let m' := fst (add_all env adds (m, w)) in
  let new := items_added env (tick w) adds in
  items (MemoryStore.short_term m')
  = last_n (maxlen (MemoryStore.short_term m))
      (items (MemoryStore.short_term m) ++ routed ShortTerm new)
  /\ items (MemoryStore.mid_term m')
     = last_n (maxlen (MemoryStore.mid_term m))
         (items (MemoryStore.mid_term m) ++ routed MidTerm new)
  /\ MemoryStore.long_term m'
     = MemoryStore.long_term m ++ routed LongTerm new
  /\ maxlen (MemoryStore.short_term m') = maxlen (MemoryStore.short_term m)
  /\ maxlen (MemoryStore.mid_term m') = maxlen (MemoryStore.mid_term m).
Proof.
  revert m w. induction adds as [|[[r c] i] rest IH]; intros m w [Hs Hm];
    cbv zeta.
  - cbn [add_all fold_left items_added routed filter fst].
    rewrite !app_nil_r, !last_n_short by assumption. auto.
  - cbn [add_all fold_left items_added].
    pose proof (add_by_tier env r c i m w) as T. cbv zeta in T.
    pose proof (add_tick env r c i m w) as K.
    destruct (MemoryStore.add env r c i (m, w)) as [m1 w1].
    cbn [fst snd] in T, K. fold (add_all env rest (m1, w1)).
    set (item := MemoryStore.new_item env (tick w) r c i) in *.
    assert (W1 : within_capacity m1).
    { subst m1. unfold within_capacity.
      destruct (tier_of item); cbn [MemoryStore.with_short MemoryStore.with_mid
        MemoryStore.with_long MemoryStore.short_term MemoryStore.mid_term];
        rewrite ?deque_append_length, ?deque_append_maxlen; lia. }
    destruct (IH m1 w1 W1) as (A & B & C & D & E). cbv zeta in A, B, C, D, E.
    rewrite K in A, B, C. rewrite A, B, C, D, E. clear A B C D E IH.
    unfold routed. cbn [filter]. subst m1.
    destruct (tier_of item); cbn [tier_eqb MemoryStore.with_short
      MemoryStore.with_mid MemoryStore.with_long MemoryStore.short_term
      MemoryStore.mid_term MemoryStore.long_term];
      rewrite ?deque_append_last_n, ?deque_append_maxlen, ?last_n_absorb,
        <- ?app_assoc; cbn [app]; auto.
Qed.

Lemma tiers_hold_latest_routed_items_witness :
  let adds := [(lit "user", lit "a", 0.4); (lit "user", lit "b", 0.9);
               (lit "assistant", lit "c", 0.3); (lit "user", lit "d", 0.1)] in
  let m' := fst (add_all Demo.env adds
                   (MemoryStore.mk (mkDeque 2 []) (mkDeque 2 []) [],
                    Demo.empty_world)) in
  map content (items (MemoryStore.short_term m'))
  = [VStr (lit "c"); VStr (lit "d")]
  /\ map content (MemoryStore.long_term m') = [VStr (lit "b")].
Proof.
  cbv zeta.
  destruct (tiers_hold_latest_routed_items Demo.env
              [(lit "user", lit "a", 0.4); (lit "user", lit "b", 0.9);
               (lit "assistant", lit "c", 0.3); (lit "user", lit "d", 0.1)]
              (MemoryStore.mk (mkDeque 2 []) (mkDeque 2 []) [])
              Demo.empty_world) as (A & _ & C & _).
  - split; cbn; lia.
  - cbv zeta in A, C. rewrite A, C. split; reflexivity.
Defined.

Lemma load_line_capacity env (m : MemoryStore.t) (line : str) :
  within_capacity m ->
  within_capacity (MemoryStore.load_line env m line)
  /\ maxlen (MemoryStore.short_term (MemoryStore.load_line env m line))
     = maxlen (MemoryStore.short_term m)
  /\ maxlen (MemoryStore.mid_term (MemoryStore.load_line env m line))
     = maxlen (MemoryStore.mid_term m).
Proof.
  intros [Hs Hm]. unfold MemoryStore.load_line, within_capacity.
  destruct (strip line); [auto|].
  destruct (json_load_item env _) as [item|]; [|auto].
  destruct (py_eq_str (role item) (lit "summary"));
    [|destruct (py_ge (importance item) 0.7) as [|[|]]; [now auto| |]];
    cbn [MemoryStore.with_short MemoryStore.with_mid MemoryStore.with_long
         MemoryStore.short_term MemoryStore.mid_term];
    rewrite ?deque_append_length, ?deque_append_maxlen; repeat split; lia.
Qed.

Lemma add_capacity env r c i (m : MemoryStore.t) (w : World) :
  within_capacity m ->
  within_capacity (fst (MemoryStore.add env r c i (m, w)))
  /\ maxlen (MemoryStore.short_term (fst (MemoryStore.add env r c i (m, w))))
     = maxlen (MemoryStore.short_term m)
  /\ maxlen (MemoryStore.mid_term (fst (MemoryStore.add env r c i (m, w))))
     = maxlen (MemoryStore.mid_term m).
Proof.
  intros [Hs Hm]. rewrite add_by_tier. cbv zeta. unfold within_capacity.
  destruct (tier_of _);
    cbn [MemoryStore.with_short MemoryStore.with_mid MemoryStore.with_long
         MemoryStore.short_term MemoryStore.mid_term];
    rewrite ?deque_append_length, ?deque_append_maxlen; repeat split; lia.
Qed.

(** X5.  A store built by [MemoryStore(max_short, max_mid)], whatever the
    log it loads, and then used for any sequence of [add] calls never holds
    more than [max_short] short-term and [max_mid] mid-term items. *)
Theorem tiers_never_exceed_capacity
  (env : Env) (max_short max_mid : nat) (w : World) (adds : list add_args) :
  let m := fst (add_all env adds (MemoryStore.init env max_short max_mid w)) in
  (length (items (MemoryStore.short_term m)) <= max_short)%nat
  /\ (length (items (MemoryStore.mid_term m)) <= max_mid)%nat
  /\ maxlen (MemoryStore.short_term m) = max_short
  /\ maxlen (MemoryStore.mid_term m) = max_mid.
Proof.
  cbv zeta.
  assert (Fold : forall lines m0,
             within_capacity m0 ->
             within_capacity (fold_left (MemoryStore.load_line env) lines m0)
             /\ maxlen (MemoryStore.short_term
                          (fold_left (MemoryStore.load_line env) lines m0))
                = maxlen (MemoryStore.short_term m0)
             /\ maxlen (MemoryStore.mid_term
                          (fold_left (MemoryStore.load_line env) lines m0))
                = maxlen (MemoryStore.mid_term m0)).
  { induction lines as [|l lines IH]; intros m0 W0; cbn [fold_left]; [auto|].
    destruct (load_line_capacity env m0 l W0) as (W1 & S1 & M1).
    destruct (IH _ W1) as (W2 & S2 & M2). rewrite S2, M2, S1, M1. auto. }
  assert (Init : within_capacity (fst (MemoryStore.init env max_short max_mid w))
                 /\ maxlen (MemoryStore.short_term
                              (fst (MemoryStore.init env max_short max_mid w)))
                    = max_short
                 /\ maxlen (MemoryStore.mid_term
                              (fst (MemoryStore.init env max_short max_mid w)))
                    = max_mid).
  { unfold MemoryStore.init, MemoryStore._load_from_disk.
    assert (E : within_capacity
                  (MemoryStore.mk (mkDeque max_short []) (mkDeque max_mid []) []))
      by (split; cbn; lia).
    destruct (log (disk w)); [|cbn; auto].
    destruct (fs_open (disk w)) as [|text]; [cbn; auto|]. cbn [fst].
    destruct (Fold (fst (fs_lines text (disk w))) _ E) as (W1 & S1 & M1).
    auto. }
  assert (Adds : forall adds st,
             within_capacity (fst st) ->
             within_capacity (fst (add_all env adds st))
             /\ maxlen (MemoryStore.short_term (fst (add_all env adds st)))
                = maxlen (MemoryStore.short_term (fst st))
             /\ maxlen (MemoryStore.mid_term (fst (add_all env adds st)))
                = maxlen (MemoryStore.mid_term (fst st))).
  { clear. induction adds as [|[[r c] i] rest IH]; intros [m0 w0] W0;
      cbn [add_all fold_left fst] in *; [auto|].
    destruct (add_capacity env r c i m0 w0 W0) as (W1 & S1 & M1).
    fold (add_all env rest (MemoryStore.add env r c i (m0, w0))).
    destruct (IH _ W1) as (W2 & S2 & M2). rewrite S2, M2, S1, M1. auto. }
  destruct Init as (W0 & S0 & M0).
  destruct (Adds adds _ W0) as ([Ws Wm] & S1 & M1).
  rewrite S1, M1, S0, M0 in *. auto.
Qed.

(** X6.  With a writable log, a sequence of [add] calls only appends:
    the log afterwards is the log before followed by one JSON line per
    call, in call order. *)
Theorem log_is_append_only
  (env : Env) (adds : list add_args) (m : MemoryStore.t) (w : World) :
  writable (disk w) = true ->
  log_text (disk (snd (add_all env adds (m, w))))
  = log_text (disk w) ++ log_lines env (items_added env (tick w) adds).
Proof.
  revert m w. induction adds as [|[[r c] i] rest IH]; intros m w Wr.
  - cbn. now rewrite app_nil_r.
  - cbn [add_all fold_left items_added].
    destruct (ReplayFacts.add_world env r c i m w Wr) as (L & W1 & _ & T).
    destruct (MemoryStore.add env r c i (m, w)) as [m1 w1].
    cbn [snd] in L, W1, T. fold (add_all env rest (m1, w1)).
    rewrite (IH m1 w1 W1), L, T. unfold log_lines. cbn [map concat].
    now rewrite <- !app_assoc.
Qed.

Lemma log_is_append_only_witness :
  log_text (disk (snd (add_all Demo.env
                         [(lit "user", lit "a", 0.4); (lit "user", lit "b", 0.9)]
                         (MemoryStore.mk (mkDeque 2 []) (mkDeque 2 []) [],
                          mkWorld (mkDisk (Some (lit "old")) true true) 0 []))))
  = lit "old"
    ++ log_lines Demo.env
         [mkItem (lit "2025-01-01T00:00:00") (lit "user") (lit "a") 0.4;
          mkItem (lit "2025-01-01T00:00:01") (lit "user") (lit "b") 0.9].
Proof.
  apply (log_is_append_only Demo.env
           [(lit "user", lit "a", 0.4); (lit "user", lit "b", 0.9)]
           (MemoryStore.mk (mkDeque 2 []) (mkDeque 2 []) [])
           (mkWorld (mkDisk (Some (lit "old")) true true) 0 [])).
  reflexivity.
Defined.

Lemma add_unwritable env r c i (m : MemoryStore.t) (w : World) :
  writable (disk w) = false ->
  disk (snd (MemoryStore.add env r c i (m, w))) = disk w.
Proof.
  intro Wr. unfold MemoryStore.add. cbn [snd].
  rewrite MemoryStoreFacts.append_disk_unwritable; [reflexivity|exact Wr].
Qed.

(** X7.  With a log that cannot be written, [add] swallows the error:
    the disk is left as it was and the store in memory is the same as the
    one a writable log would have given. *)
Theorem unwritable_log_costs_no_memory
  (env : Env) (adds : list add_args) (m : MemoryStore.t) (w : World) :
  writable (disk w) = false ->
  disk (snd (add_all env adds (m, w))) = disk w
  /\ forall w2, tick w2 = tick w ->
       fst (add_all env adds (m, w)) = fst (add_all env adds (m, w2)).
Proof.
  intro Wr. split.
  - revert m w Wr. induction adds as [|[[r c] i] rest IH]; intros m w Wr;
      [reflexivity|].
    cbn [add_all fold_left].
    pose proof (add_unwritable env r c i m w Wr) as D.
    destruct (MemoryStore.add env r c i (m, w)) as [m1 w1]. cbn [snd] in D.
    fold (add_all env rest (m1, w1)). rewrite (IH m1 w1); [exact D|].
    now rewrite D.
  - clear Wr. revert m w. induction adds as [|[[r c] i] rest IH];
      intros m w w2 T; [reflexivity|].
    cbn [add_all fold_left].
    pose proof (add_by_tier env r c i m w) as A1.
    pose proof (add_by_tier env r c i m w2) as A2.
    pose proof (add_tick env r c i m w) as K1.
    pose proof (add_tick env r c i m w2) as K2.
    cbv zeta in A1, A2. rewrite T in A2.
    destruct (MemoryStore.add env r c i (m, w)) as [m1 w1].
    destruct (MemoryStore.add env r c i (m, w2)) as [m2 w3].
    cbn [fst snd] in *. subst m1 m2.
    apply (IH _ w1 w3). congruence.
Qed.

Lemma unwritable_log_costs_no_memory_witness :
  let adds := [(lit "user", lit "a", 0.4); (lit "user", lit "b", 0.9)] in
  let m := MemoryStore.mk (mkDeque 2 []) (mkDeque 2 []) [] in
  let locked := mkWorld (mkDisk (Some (lit "old")) true false) 0 [] in
  disk (snd (add_all Demo.env adds (m, locked))) = disk locked
  /\ fst (add_all Demo.env adds (m, locked))
     = fst (add_all Demo.env adds (m, Demo.empty_world)).
Proof.
  cbv zeta.
  destruct (unwritable_log_costs_no_memory Demo.env
              [(lit "user", lit "a", 0.4); (lit "user", lit "b", 0.9)]
              (MemoryStore.mk (mkDeque 2 []) (mkDeque 2 []) [])
              (mkWorld (mkDisk (Some (lit "old")) true false) 0 []) eq_refl)
    as [D F].
  split; [exact D|]. apply F. reflexivity.
Defined.

(** X8.  [promote_summary] always appends one item to the mid-term queue,
    with role "summary" and the given text, and leaves the other two tiers
    alone; its importance lies between 0.5 and 1 and is the given weight
    when that lies in this range. *)
Theorem promote_summary_lands_in_mid_term
  (env : Env) (text : str) (weight : Q) (m : MemoryStore.t) (w : World) :
  let m' := fst (MemoryStore.promote_summary env text weight (m, w)) in
  exists item imp,
    MemoryStore.mid_term m' = deque_append (MemoryStore.mid_term m) item
    /\ MemoryStore.short_term m' = MemoryStore.short_term m
    /\ MemoryStore.long_term m' = MemoryStore.long_term m
    /\ role item = VStr (lit "summary") /\ content item = VStr text
    /\ importance item = VFloat imp
    /\ 0.5 <= imp /\ imp <= 1
    /\ (0.5 <= weight -> weight <= 1 -> imp == weight).
Proof.
  cbv zeta. unfold MemoryStore.promote_summary.
  exists (MemoryStore.new_item env (tick w) (lit "summary") text
            (py_max weight 0.5)),
         (py_max 0.0 (py_min 1.0 (py_max weight 0.5))).
  rewrite add_summary. cbn [MemoryStore.with_mid MemoryStore.mid_term
    MemoryStore.short_term MemoryStore.long_term role content importance
    MemoryStore.new_item mkItem].
  repeat split; try reflexivity.
  - destruct (py_max_cases weight 0.5) as [[H ->]|[H ->]];
      destruct (py_min_cases 1.0 0.5) as [[H1 E1]|[H1 E1]];
      destruct (py_min_cases 1.0 weight) as [[H2 E2]|[H2 E2]];
      rewrite ?E1, ?E2;
      match goal with
      | |- 0.5 <= py_max 0.0 ?v =>
          destruct (py_max_cases 0.0 v) as [[H3 ->]|[H3 ->]]
      end; lra.
  - apply clamp01_bounds.
  - intros L U.
    destruct (py_max_cases weight 0.5) as [[H ->]|[H ->]].
    + lra.
    + rewrite clamp01_id; lra.
Qed.

Lemma promote_summary_lands_in_mid_term_witness :
  exists item imp,
    MemoryStore.mid_term
      (fst (MemoryStore.promote_summary Demo.env (lit "s") 0.9
              (MemoryStore.mk (mkDeque 2 []) (mkDeque 2 []) [],
               Demo.empty_world)))
    = deque_append (mkDeque 2 []) item
    /\ importance item = VFloat imp
    /\ imp == 0.9.
Proof.
  destruct (promote_summary_lands_in_mid_term Demo.env (lit "s") 0.9
              (MemoryStore.mk (mkDeque 2 []) (mkDeque 2 []) [])
              Demo.empty_world)
    as (item & imp & A & _ & _ & _ & _ & I & _ & _ & E).
  exists item, imp. split; [exact A|]. split; [exact I|]. apply E; lra.
Defined.

(** ** Further properties of the recall snippet and the prompts *)

Lemma drop_while_head (p : ascii -> bool) (s : str) c rest :
  drop_while p s = c :: rest -> p c = false.
Proof.
  induction s as [|d s IH]; cbn; [discriminate|].
  destruct (p d) eqn:E; [exact IH|].
  intro H. injection H as <- _. exact E.
Qed.

Lemma strip_by_last (p : ascii -> bool) (s pre : str) c :
  strip_by p s = pre ++ [c] -> p c = false.
Proof.
  unfold strip_by. intro H.
  apply (f_equal (@rev ascii)) in H.
  rewrite rev_involutive, rev_app_distr in H. cbn in H.
  eapply drop_while_head. exact H.
Qed.

Lemma strip_by_head (p : ascii -> bool) (s rest : str) c :
  strip_by p s = c :: rest -> p c = false.
Proof.
  unfold strip_by. intro H.
  destruct (drop_while p s) as [|d s1] eqn:D.
  - cbn in H. inversion H.
  - assert (Pd : p d = false) by (eapply drop_while_head; exact D).
    destruct (drop_while_suffix p (rev (d :: s1))) as [pre E].
    cbn [rev] in E, H.
    destruct (drop_while p (rev s1 ++ [d])) as [|x xs] eqn:X.
    + cbn in H. inversion H.
    + destruct (exists_last (l := x :: xs)) as (ys & y & Y); [discriminate|].
      rewrite Y in *. rewrite rev_app_distr in H. cbn in H.
      injection H as <- _.
      rewrite app_assoc in E. apply app_inj_tail in E. destruct E as [_ <-].
      exact Pd.
Qed.

(** X9.  The snippet of [get_recall_snippet] neither starts nor ends with
    white space, for every [max_chars], and is empty for an empty store. *)
Theorem recall_snippet_is_trimmed
  (env : Env) (M : BinInt.Z) (m : MemoryStore.t) (w : World) :
  let out := fst (MemoryStore.get_recall_snippet env M (m, w)) in
  (forall c rest, out = c :: rest -> is_space c = false)
  /\ (forall pre c, out = pre ++ [c] -> is_space c = false)
  /\ (items (MemoryStore.short_term m) = [] ->
      items (MemoryStore.mid_term m) = [] ->
      MemoryStore.long_term m = [] -> out = []).
Proof.
  cbv zeta. rewrite recall_snippet_value. split; [|split].
  - intros c rest H. eapply strip_by_head. exact H.
  - intros pre c H. eapply strip_by_last. exact H.
  - intros S Mi L. unfold MemoryStore.recall_blob. rewrite S, Mi, L.
    cbn. destruct (0 >? M)%Z; [|reflexivity].
    unfold slice_from. destruct (- M <? 0)%Z; now rewrite skipn_nil.
Qed.

Lemma recall_snippet_is_trimmed_witness :
  fst (MemoryStore.get_recall_snippet Demo.env 1200
         (MemoryStore.mk (mkDeque 32 []) (mkDeque 64 []) [], Demo.empty_world))
  = [].
Proof.
  apply (recall_snippet_is_trimmed Demo.env 1200
           (MemoryStore.mk (mkDeque 32 []) (mkDeque 64 []) [])
           Demo.empty_world); reflexivity.
Defined.

Lemma refine_passes_shape (thought : str) (n : nat) :
  forall i current,
    ends_with thought current ->
    length (refine_passes i n current) = n
    /\ Forall (ends_with thought) (refine_passes i n current)
    /\ forall k, (k < n)%nat ->
         nth k (refine_passes i n current) []
         = lit "Refine (pass " ++ str_of_nat (i + k + 1) ++ lit "): "
           ++ match k with
              | O => current
              | S k' => nth k' (refine_passes i n current) []
              end.
Proof.
  induction n as [|n IH]; intros i current E.
  - cbn. repeat split; [constructor|]. intros k H. lia.
  - cbn [refine_passes].
    set (next := lit "Refine (pass " ++ str_of_nat (i + 1) ++ lit "): "
                 ++ current).
    assert (En : ends_with thought next).
    { destruct E as [pre ->]. unfold next.
      exists (lit "Refine (pass " ++ str_of_nat (i + 1) ++ lit "): " ++ pre).
      now rewrite <- !app_assoc. }
    destruct (IH (S i) next En) as (L & F & N).
    split; [cbn [length]; now rewrite L|]. split; [now constructor|].
    intros [|k] H.
    + cbn [nth]. unfold next. now rewrite Nat.add_0_r.
    + cbn [nth]. rewrite (N k) by lia.
      replace (S i + k + 1)%nat with (i + S k + 1)%nat by lia.
      destruct k; reflexivity.
Qed.

(** X10.  [recursive_refine(thought, depth)] returns depth + 1 prompts:
    the first is "Initial thought: " and the thought, every prompt ends
    with the thought, and pass k + 1 is "Refine (pass k+1): " put before
    the thought (first pass) or before the prompt of pass k. *)
Theorem recursive_refine_shape (thought : str) (depth : nat) :
  let chain := recursive_refine thought depth in
  length chain = S depth
  /\ nth 0 chain [] = lit "Initial thought: " ++ thought
  /\ Forall (ends_with thought) chain
  /\ forall k, (k < depth)%nat ->
       nth (S k) chain []
       = lit "Refine (pass " ++ str_of_nat (k + 1) ++ lit "): "
         ++ match k with
            | O => thought
            | S k' => nth (S k') chain []
            end.
Proof.
  cbv zeta. unfold recursive_refine.
  destruct (refine_passes_shape thought depth 0 thought) as (L & F & N).
  { now exists []. }
  split; [cbn [length]; now rewrite L|]. split; [reflexivity|].
  split.
  - constructor; [|exact F]. now exists (lit "Initial thought: ").
  - intros k H. cbn [nth]. rewrite (N k H). reflexivity.
Qed.

Lemma recursive_refine_shape_witness :
  nth 2 (recursive_refine (lit "hi") 2) []
  = lit "Refine (pass 2): Refine (pass 1): hi".
Proof.
  destruct (recursive_refine_shape (lit "hi") 2) as (_ & _ & _ & N).
  rewrite (N 1%nat) by lia. rewrite (N 0%nat) by lia. reflexivity.
Defined.

(** ** Further properties of the turn *)

Lemma energy_after_update env u answer self :
  SpacetimeState.energy
    (state (_update_state_from_interaction env u answer self))
  = py_max 0.0
      (py_min 1.0
         (py_max 0.2
            (py_min 1.0
               (0.4 + inject_Z (Z.of_nat (length answer)) / 2000.0)))).
Proof.
  unfold _update_state_from_interaction.
  destruct (contains (lit "sorry") (lower answer));
    destruct (any_in [lit "sad"; lit "scared"; lit "afraid"; lit "lonely";
                      lit "hurt"] (lower u));
    destruct (any_in [lit "idea"; lit "story"; lit "creative";
                      lit "brainstorm"] (lower u)); reflexivity.
Qed.

Lemma state_after_update env u answer self :
  exists mid,
    state (_update_state_from_interaction env u answer self)
    = SpacetimeState.soften 0.02 (SpacetimeState.clamp mid).
Proof.
  unfold _update_state_from_interaction. cbn [state with_state].
  unfold SpacetimeState.after, SpacetimeState.rotate_plane.
  cbn [SpacetimeState.field_of_name].
  change (SpacetimeState.field_of_name (lit "w")) with (Some SpacetimeState.W).
  change (SpacetimeState.field_of_name (lit "y")) with (Some SpacetimeState.Y).
  cbv beta iota. eexists. reflexivity.
Qed.

Lemma update_state_in_range env u answer self :
  SpacetimeState.in_range
    (state (_update_state_from_interaction env u answer self)).
Proof.
  destruct (state_after_update env u answer self) as [mid ->].
  apply SpacetimeStateFacts.soften_in_range; try lra.
  apply SpacetimeStateFacts.clamp_in_range.
Qed.

(** X11.  [_update_state_from_interaction] leaves every field of the
    state in [0,1], whatever the state was before; the energy afterwards is
    min(1, 0.4 + len(answer)/2000), so it is at least 0.4 and the floor of
    0.2 in the code never applies. *)
Theorem update_state_lands_in_range
  (env : Env) (u answer : str) (self : t) :
  let s' := state (_update_state_from_interaction env u answer self) in
  let len := inject_Z (Z.of_nat (length answer)) in
  SpacetimeState.in_range s'
  /\ SpacetimeState.energy s' == py_min 1.0 (0.4 + len / 2000.0)
  /\ 0.4 <= SpacetimeState.energy s'.
Proof.
  cbv zeta.
  assert (Len : 0 <= inject_Z (Z.of_nat (length answer)) / 2000.0).
  { apply Qle_shift_div_l; [reflexivity|]. rewrite Qmult_0_l.
    change 0 with (inject_Z 0). rewrite <- Zle_Qle. lia. }
  assert (E : SpacetimeState.energy
                (state (_update_state_from_interaction env u answer self))
              == py_min 1.0
                   (0.4 + inject_Z (Z.of_nat (length answer)) / 2000.0)).
  { rewrite energy_after_update.
    assert (V : 0.4 <= 0.4 + inject_Z (Z.of_nat (length answer)) / 2000.0)
      by lra.
    remember (0.4 + inject_Z (Z.of_nat (length answer)) / 2000.0) as v
      eqn:Hv.
    clear Hv Len.
    assert (B : 0.2 <= py_min 1.0 v /\ py_min 1.0 v <= 1)
      by (destruct (py_min_cases 1.0 v) as [[H ->]|[H ->]]; lra).
    assert (M : py_max 0.2 (py_min 1.0 v) == py_min 1.0 v)
      by (destruct (py_max_cases 0.2 (py_min 1.0 v)) as [[H ->]|[H ->]]; lra).
    destruct B as [B1 B2].
    rewrite clamp01_id; rewrite M; [reflexivity| |]; lra. }
  split; [|split].
  - apply update_state_in_range.
  - exact E.
  - rewrite E.
    destruct (py_min_cases 1.0
                (0.4 + inject_Z (Z.of_nat (length answer)) / 2000.0))
      as [[H ->]|[H ->]]; lra.
Qed.

Lemma turn_state_in_range env u llm self w :
  SpacetimeState.in_range (state self) ->
  SpacetimeState.in_range
    (state (fst (snd (generate_reply env u llm (self, w))))).
Proof.
  intro R.
  destruct (generate_reply_run env u llm self w)
    as [(e0 & pre & site & msgs & _ & _ & _ & _ & _ & E)
       |(final & cl & dm & d & el & sl & w1 & m' & _ & _ & _ & _ & _ & _ & _
         & _ & K)];
    cbv zeta in *.
  - now rewrite E.
  - destruct K as (E & _). rewrite E. cbn [state].
    apply update_state_in_range.
Qed.

(** X12.  From a freshly constructed engine, after any number of turns
    with any generation function, raising or not, every field of the state
    lies in [0,1]. *)
Theorem state_in_range_after_any_turns
  (env : Env) (llm : llm_func) (texts : list str)
  (nm : str) (er ema ese : bool) (w0 : World) :
  SpacetimeState.in_range
    (state (fst (run_turns env llm texts (init env nm er ema ese w0)))).
Proof.
  assert (G : forall texts st,
             SpacetimeState.in_range (state (fst st)) ->
             SpacetimeState.in_range
               (state (fst (run_turns env llm texts st)))).
  { clear. induction texts as [|u rest IH]; intros [self w] R;
      cbn [run_turns fst] in *; [exact R|].
    apply IH.
    destruct (generate_reply env u llm (self, w)) as [r [s1 w1]] eqn:E.
    pose proof (turn_state_in_range env u llm self w R) as T.
    rewrite E in T. exact T. }
  apply G. unfold init. destruct (MemoryStore.init env 32 64 w0).
  exact default_in_range.
Qed.

Lemma finish_turn_returns env u llm final self w :
  exists st',
    (let (r, st1) := update_step env u final (self, w) in
     match r with
     | inl e0 => (inl e0, st1)
     | inr _ =>
         let (r0, st2) := summary_hook env llm st1 in
         match r0 with
         | inl e0 => (inl e0, st2)
         | inr _ => ret final st2
         end
     end) = (inr final, st').
Proof.
  rewrite (update_step_run env u final self w). cbv zeta.
  match goal with
  | |- context [summary_hook env llm (?s, ?w1)] =>
      destruct (summary_hook_run env llm s w1) as (m' & w' & sl & E4 & _)
  end.
  rewrite E4. unfold ret. eauto.
Qed.

(** X13.  A turn of [generate_reply] that raises leaves the engine
    object (state, memory tiers, switches, dialogue history) and the log
    on disk exactly as they were. *)
Theorem failed_turn_changes_nothing
  (env : Env) (u : str) (llm : llm_func) (self : t) (w : World) (e : Exn) :
  let out := generate_reply env u llm (self, w) in
  fst out = inl e ->
  fst (snd out) = self /\ disk (snd (snd out)) = disk w.
Proof.
  cbv zeta. unfold generate_reply, bind.
  destruct (draft_step_cases env u llm self w)
    as (r1 & w1 & E1 & D1 & [(cm & e1 & MA & -> & LC & C1)
                            | (cl & dm & rd & CL & LD & C1 & ->)]);
    rewrite E1.
  - intros _. cbn [fst snd]. auto.
  - destruct rd as [e1|d]; [intros _; cbn [fst snd]; auto|].
    destruct (self_eval_step_cases u llm (strip d) self w1)
      as (r2 & w2 & E2 & D2 & T2 & [(SE & -> & C2)
                                  | (SE & em & rt & LE & C2 & ->)]);
      rewrite E2.
    + destruct (finish_turn_returns env u llm (strip d) self w2) as [st' F].
      match goal with
      | |- fst ?X = inl e -> _ =>
          intro H; assert (F' : X = (inr (strip d), st')) by exact F;
          rewrite F' in H; discriminate H
      end.
    + destruct rt as [e1|t].
      * intros _. cbn [fst snd]. split; [reflexivity|congruence].
      * cbv beta iota zeta.
        destruct (contains (lit "ROMANAI_FINAL") t);
          [match goal with
           | |- context [(0 <? ?n)%nat] => destruct (0 <? n)%nat
           end|];
          match goal with
          | |- context [update_step env u ?final (self, w2)] =>
              destruct (finish_turn_returns env u llm final self w2)
                as [st' F];
              match goal with
              | |- fst ?X = inl e -> _ =>
                  intro H; assert (F' : X = (inr final, st')) by exact F;
                  rewrite F' in H; discriminate H
              end
          end.
Qed.

Lemma failed_turn_changes_nothing_witness :
  let out := generate_reply Demo.env (lit "hi") Demo.failing_llm Demo.fresh in
  fst (snd out) = fst Demo.fresh
  /\ disk (snd (snd out)) = disk Demo.empty_world.
Proof.
  cbv zeta.
  apply (failed_turn_changes_nothing Demo.env (lit "hi") Demo.failing_llm
           (fst Demo.fresh) (snd Demo.fresh) (Exception (lit "boom"))).
  vm_compute. reflexivity.
Defined.

(** X14.  A turn that returns stores two memory entries.  When the user
    text holds one of the keywords ("important", "remember", "my name",
    "my birthday", "my project"), the user entry goes to long-term memory
    with importance 0.8 and the answer to the short-term queue; otherwise
    both go to the short-term queue, the user entry with importance 0.4,
    and long-term memory is unchanged.  The answer is stored with the
    importance the code computes for it, that of the user entry times
    0.8, which the routing rule sends to the short-term queue in both
    cases: the answer never enters long-term memory. *)
Theorem turn_routes_user_and_assistant_entries
  (env : Env) (u : str) (llm : llm_func) (self : t) (w : World) (answer : str) :
  let out := generate_reply env u llm (self, w) in
  fst out = inr answer ->
  let m := memory self in
  let m' := memory (fst (snd out)) in
  exists k,
    let imp := if has_keyword u then 0.8 else 0.4 in
    let answer_item :=
      MemoryStore.new_item env (S k) (lit "assistant") answer
        (imp * 0.8) in
    tier_of answer_item = ShortTerm
    /\ if has_keyword u
       then
         MemoryStore.long_term m'
         = MemoryStore.long_term m
           ++ [mkItem (utcnow env k) (lit "user") u 0.8]
         /\ MemoryStore.short_term m'
            = deque_append (MemoryStore.short_term m) answer_item
       else
         MemoryStore.long_term m' = MemoryStore.long_term m
         /\ MemoryStore.short_term m'
            = deque_append
                (deque_append (MemoryStore.short_term m)
                   (mkItem (utcnow env k) (lit "user") u 0.4))
                answer_item.
Proof.
  cbv zeta. intro R.
  destruct (generate_reply_run env u llm self w)
    as [(e0 & pre & site & msgs & R' & _)
       |(final & cl & dm & d & el & sl & w1 & m' & R' & _ & _ & _ & _ & _ & _
         & _ & K)];
    cbv zeta in *; [congruence|].
  assert (final = answer) by congruence. subst final.
  destruct K as (E & SH & LG & _). rewrite E. cbn [memory].
  rewrite SH, LG. exists (tick w1). unfold has_keyword.
  destruct (any_in _ (lower u));
    (split; [reflexivity|]);
    unfold MemoryStore.add, MemoryStore._append_disk, fs_append;
    cbn [disk tick calls writable];
    destruct (writable (disk w1)); split; reflexivity.
Qed.

Lemma turn_routes_user_and_assistant_entries_witness :
  let out := generate_reply Demo.env (lit "Remember my name") Demo.critic_llm
               Demo.fresh in
  fst out = inr (lit "improved text")
  /\ exists k,
       let answer_item :=
         MemoryStore.new_item Demo.env (S k) (lit "assistant")
           (lit "improved text") (0.8 * 0.8) in
       tier_of answer_item = ShortTerm
       /\ MemoryStore.long_term (memory (fst (snd out)))
          = [mkItem (utcnow Demo.env k) (lit "user") (lit "Remember my name")
               0.8]
       /\ MemoryStore.short_term (memory (fst (snd out)))
          = deque_append (MemoryStore.short_term (memory (fst Demo.fresh)))
              answer_item.
Proof.
  cbv zeta. split; [vm_compute; reflexivity|].
  apply (turn_routes_user_and_assistant_entries Demo.env
           (lit "Remember my name") Demo.critic_llm (fst Demo.fresh)
           (snd Demo.fresh) (lit "improved text")).
  vm_compute. reflexivity.
Defined.

Lemma draft_step_plain env u llm self w :
  enable_multi_agent self = false ->
  exists sys notes w',
    let dm := [msg (lit "system") sys; msg (lit "user") u] ++ notes
              ++ [msg (lit "user") u] in
    draft_step env u llm (self, w)
    = (match llm dm with inl e => inl e | inr d => inr (strip d) end,
       (self, w'))
    /\ disk w' = disk w
    /\ calls w' = calls w ++ [(Draft, dm, llm dm)]
    /\ (enable_recursive self = false -> notes = []).
Proof.
  intro MA.
  unfold draft_step, _build_system_prompt, bind, get_self, call_llm, ret.
  destruct (recall_snippet_world env 1200 (memory self) w) as [D1 C1].
  tidy.
  destruct (MemoryStore.get_recall_snippet env 1200 (memory self, w))
    as [recall w1]. tidy.
  rewrite MA. tidy.
  destruct (enable_recursive self) eqn:ER.
  - cbv zeta. unfold recursive_refine. cbv iota. cbn [app].
    match goal with
    | |- context [(Draft, [?s; ?a; ?n; ?b], _)] =>
        exists (msg_content s), [n],
          (mkWorld (disk w1) (tick w1)
             (calls w1 ++ [(Draft, [s; a; n; b], llm [s; a; n; b])]))
    end.
    cbn [app msg_content].
    match goal with
    | |- context [(Draft, ?m, llm ?m)] => destruct (llm m) as [e|d] eqn:LD
    end; tidy; rewrite C1;
      (split; [reflexivity|]; split; [exact D1|]; split; [reflexivity|];
       intro; discriminate).
  - cbv zeta. cbv iota. cbn [app].
    match goal with
    | |- context [(Draft, [?s; ?a; ?b], _)] =>
        exists (msg_content s), [],
          (mkWorld (disk w1) (tick w1)
             (calls w1 ++ [(Draft, [s; a; b], llm [s; a; b])]))
    end.
    cbn [app msg_content].
    match goal with
    | |- context [(Draft, ?m, llm ?m)] => destruct (llm m) as [e|d] eqn:LD
    end; tidy; rewrite C1;
      (split; [reflexivity|]; split; [exact D1|]; split; [reflexivity|];
       reflexivity).
Qed.

(** X15.  With the council and the self-evaluation switched off, a turn
    makes exactly one generation call besides summaries, the draft; its
    messages are the system prompt, the user text, the reasoning notes (none
    when recursion is off too) and the user text once more; the turn
    returns the stripped draft, or raises what that call raised. *)
Theorem plain_turn_is_one_draft_call
  (env : Env) (u : str) (llm : llm_func) (self : t) (w : World) :
  enable_multi_agent self = false ->
  enable_self_eval self = false ->
  let out := generate_reply env u llm (self, w) in
  exists sys notes sl,
    let dm := [msg (lit "system") sys; msg (lit "user") u] ++ notes
              ++ [msg (lit "user") u] in
    new_calls w (snd (snd out)) = (Draft, dm, llm dm) :: sl
    /\ Forall (fun x : entry => site_of x = Summary) sl
    /\ fst out = match llm dm with inl e => inl e | inr d => inr (strip d) end
    /\ (enable_recursive self = false -> notes = []).
Proof.
  intros MA SE. cbv zeta. unfold generate_reply, bind.
  destruct (draft_step_plain env u llm self w MA)
    as (sys & notes & w1 & E1 & D1 & C1 & N1).
  cbv zeta in E1, C1. rewrite E1. exists sys, notes.
  set (dm := [msg (lit "system") sys; msg (lit "user") u] ++ notes
             ++ [msg (lit "user") u]) in *.
  destruct (llm dm) as [e|d] eqn:LD.
  - exists []. tidy. split; [|split; [constructor|split; [reflexivity|exact N1]]].
    apply (new_calls_app w). exact C1.
  - destruct (self_eval_step_cases u llm (strip d) self w1)
      as (r2 & w2 & E2 & D2 & T2 & [(_ & -> & C2) | (SE' & _)]);
      [|congruence].
    rewrite E2.
    pose proof (update_step_calls env u (strip d) self w2) as CM.
    rewrite (update_step_run env u (strip d) self w2) in *.
    cbv zeta in *.
    set (imp := if any_in _ _ then 0.8 else 0.4) in *.
    set (mw := MemoryStore.add env (lit "assistant") (strip d) (imp * 0.8)
                 (MemoryStore.add env (lit "user") u imp (memory self, w2)))
      in *.
    set (self3 := mk _ _ _ _ _ _ _) in *.
    destruct (summary_hook_run env llm self3 (snd mw))
      as (m' & w' & sl & E4 & _ & _ & C4 & F4 & _).
    rewrite E4. unfold ret. tidy. exists sl.
    split; [|split; [|split; [reflexivity|exact N1]]].
    + apply (new_calls_app w). rewrite C4, CM, C2, C1, <- app_assoc.
      reflexivity.
    + eapply Forall_impl; [|exact F4]. intros x [S _]. exact S.
Qed.

Lemma plain_turn_is_one_draft_call_witness :
  let st := init Demo.env (lit "RomanAI") false false false Demo.empty_world in
  let out := generate_reply Demo.env (lit "hi") Demo.fake_llm st in
  exists sys notes sl,
    let dm := [msg (lit "system") sys; msg (lit "user") (lit "hi")] ++ notes
              ++ [msg (lit "user") (lit "hi")] in
    new_calls (snd st) (snd (snd out)) = (Draft, dm, Demo.fake_llm dm) :: sl
    /\ Forall (fun x : entry => site_of x = Summary) sl
    /\ fst out = match Demo.fake_llm dm with
                 | inl e => inl e
                 | inr d => inr (strip d)
                 end
    /\ (enable_recursive (fst st) = false -> notes = []).
Proof.
  cbv zeta.
  apply (plain_turn_is_one_draft_call Demo.env (lit "hi") Demo.fake_llm
           (fst (init Demo.env (lit "RomanAI") false false false
                   Demo.empty_world))
           (snd (init Demo.env (lit "RomanAI") false false false
                   Demo.empty_world)));
    reflexivity.
Defined.

(** X16.  [helper_master.run] with an engine: the adapter [_llm_call]
    never raises (a failing model becomes a "[Master GGUF error: ...]"
    text, no model the fallback text), so [generate_reply] returns and
    [run] gives back its answer: the "[helper_master ERROR: ...]" branch
    is never taken. *)
Theorem helper_master_run_returns_engine_answer
  (model : option (list Message -> result str)) (env : Env) (prompt : str)
  (self : t) (w : World) :
  let out := generate_reply env prompt (HelperMaster._llm_call model)
               (self, w) in
  exists answer,
    fst out = inr answer
    /\ HelperMaster.run model env prompt (Some self, w)
       = (answer, (Some (fst (snd out)), snd (snd out))).
Proof.
  cbv zeta. unfold HelperMaster.run. cbn [fst snd].
  destruct (generate_reply_run env prompt (HelperMaster._llm_call model) self w)
    as [(e & pre & site & msgs & _ & _ & _ & L & _)
       |(final & cl & dm & d & el & sl & w1 & m' & R & _)]; cbv zeta in *.
  - exfalso. unfold HelperMaster._llm_call in L.
    destruct model as [g|]; [destruct (g msgs)|]; discriminate L.
  - destruct (generate_reply env prompt (HelperMaster._llm_call model) (self, w))
      as [r [self' w']]. cbn [fst snd] in *. subst r.
    exists final. split; reflexivity.
Qed.

(** ** The optimizer *)

Import SpacetimeOptimizer.

Lemma boost_length gamma eps u : length (boost gamma eps u) = length u.
Proof. destruct u as [|t [|x rest]]; reflexivity. Qed.

Lemma blend_length tau b u :
  length b = length u -> length (blend tau b u) = length u.
Proof.
  revert u. induction b as [|x b IH]; intros [|a u] E; try discriminate.
  - reflexivity.
  - cbn [blend length]. f_equal. apply IH. now injection E.
Qed.

(** X17.  [spacetime_optimize_v3] returns a list as long as its input;
    for an empty input or a norm below 1e-12 it returns only zeros; it can
    only raise when the norm is at least 1e-12 and the square root it
    divides by is zero. *)
Theorem optimizer_output_shape (np_norm : list Q -> Q) (math_sqrt : Q -> Q)
  (vec : list Q) (epsilon tau : Q) :
  let r := spacetime_optimize_v3 np_norm math_sqrt vec epsilon tau in
  (forall out, r = inr out -> length out = length vec)
  /\ (vec = [] \/ np_norm vec < tiny ->
      exists out, r = inr out /\ Forall (fun o => o == 0) out)
  /\ (forall e, r = inl e ->
      tiny <= np_norm vec
      /\ (let eps := py_max (py_min epsilon 0.999999) (- 0.999999) in
          math_sqrt (1.0 - eps * eps) == 0)).
Proof.
  cbv zeta. unfold spacetime_optimize_v3.
  destruct vec as [|a vec']; [|remember (a :: vec') as vec eqn:EV].
  - split; [|split].
    + intros out E. injection E as <-. reflexivity.
    + intros _. exists []. split; [reflexivity|constructor].
    + intros e E. discriminate E.
  - assert (NE : vec <> []) by (subst vec; discriminate).
    clear EV. destruct (Qltb (np_norm vec) tiny) eqn:T.
    + split; [|split].
      * intros out E. injection E as <-. now rewrite length_map.
      * intros _. eexists. split; [reflexivity|].
        apply Forall_forall. intros o I. apply in_map_iff in I.
        destruct I as (_ & <- & _). reflexivity.
      * intros e E. discriminate E.
    + apply Qltb_false in T.
      set (eps := py_max (py_min epsilon 0.999999) (- 0.999999)).
      destruct (Qeq_bool (math_sqrt (1.0 - eps * eps)) 0) eqn:Z.
      * split; [|split].
        -- intros out E. discriminate E.
        -- intros [E|L]; [contradiction|]. exfalso.
           apply (Qlt_irrefl tiny). eapply Qle_lt_trans; eassumption.
        -- intros e _. split; [exact T|]. apply Qeq_bool_iff in Z. exact Z.
      * split; [|split].
        -- intros out E. injection E as <-.
           rewrite length_map, blend_length; [apply length_map|].
           match goal with
           | |- context [if ?c then _ else _] => destruct c
           end; [apply boost_length|reflexivity].
        -- intros [E|L]; [contradiction|]. exfalso.
           apply (Qlt_irrefl tiny). eapply Qle_lt_trans; eassumption.
        -- intros e E. discriminate E.
Qed.

Lemma optimizer_output_shape_witness :
  exists out,
    spacetime_optimize_v3 DemoOptimizer.norm DemoOptimizer.sqrt [3; 4] 0.6 0.5
    = inr out
    /\ length out = 2%nat.
Proof.
  eexists. split; [reflexivity|].
  apply (proj1 (optimizer_output_shape DemoOptimizer.norm DemoOptimizer.sqrt
                  [3; 4] 0.6 0.5)).
  reflexivity.
Defined.

(** ** Loading and long-term memory *)

Lemma replay_skips_line env (pre line post : str) (self : MemoryStore.t) :
  terminated pre = true ->
  forallb inline line = true ->
  MemoryStore.load_line env (replay env pre self) line = replay env pre self ->
  replay env (pre ++ line ++ [nl] ++ post) self = replay env (pre ++ post) self.
Proof.
  intros T I S.
  assert (P : forall rest,
             replay env (pre ++ rest) self
             = fold_left (MemoryStore.load_line env) (file_lines rest)
                 (replay env pre self)).
  { intro rest. unfold replay.
    destruct (ReplayFacts.terminated_cases pre T) as [->|(a & c & -> & E)].
    - reflexivity.
    - rewrite <- !app_assoc. cbn [app].
      rewrite !(ReplayFacts.file_lines_split a _ c E), !fold_left_app.
      cbn [file_lines fold_left]. reflexivity. }
  rewrite !P. cbn [app].
  rewrite (ReplayFacts.file_lines_split line post nl eq_refl), fold_left_app.
  rewrite (ReplayFacts.file_lines_one line I). cbn [fold_left].
  rewrite S. reflexivity.
Qed.

(** X20.  Loading a log that reads through passes over a line that is
    blank, is not JSON, is not an object with exactly the four attribute
    names, or has a role other than "summary" and an importance that does
    not compare with a number: the store built from a log with such a
    line between complete lines is the store built from the log without
    it. *)
Theorem malformed_line_is_passed_over
  (env : Env) (max_short max_mid : nat) (pre line post : str)
  (wr : bool) (k : nat) (c : list entry) :
  terminated pre = true ->
  forallb inline line = true ->
  passed_over env line ->
  fst (MemoryStore.init env max_short max_mid
         (mkWorld (mkDisk (Some (pre ++ line ++ [nl] ++ post)) true wr) k c))
  = fst (MemoryStore.init env max_short max_mid
           (mkWorld (mkDisk (Some (pre ++ post)) true wr) k c)).
Proof.
  intros T I B. unfold MemoryStore.init.
  rewrite !ReplayFacts.load_from_disk_replay by reflexivity.
  cbn [fst disk log_text log].
  apply replay_skips_line; auto.
  now apply load_line_passed_over.
Qed.

Lemma malformed_line_is_passed_over_witness :
  let good :=
    Demo.dumps (mkItem (lit "t0") (lit "user") (lit "hello") 0.4) ++ [nl] in
  fst (MemoryStore.init Demo.env 32 64
         (mkWorld (mkDisk (Some (good ++ lit "[1, 2]" ++ [nl] ++ good))
                     true true) 0 []))
  = fst (MemoryStore.init Demo.env 32 64
           (mkWorld (mkDisk (Some (good ++ good)) true true) 0 [])).
Proof.
  cbv zeta.
  apply (malformed_line_is_passed_over Demo.env 32 64
           (Demo.dumps (mkItem (lit "t0") (lit "user") (lit "hello") 0.4)
            ++ [nl])
           (lit "[1, 2]")
           (Demo.dumps (mkItem (lit "t0") (lit "user") (lit "hello") 0.4)
            ++ [nl])
           true 0 []).
  - reflexivity.
  - reflexivity.
  - right. right. left.
    exists (VList [VInt 1; VInt 2]), (Exception (lit "TypeError")).
    split; reflexivity.
Defined.





Lemma turn_keeps_long_term env u llm self w :
  has_keyword u = false ->
  MemoryStore.long_term (memory (fst (snd (generate_reply env u llm (self, w)))))
  = MemoryStore.long_term (memory self).
Proof.
  intro K.
  destruct (generate_reply_run env u llm self w)
    as [(e0 & pre & site & msgs & _ & _ & _ & _ & _ & S)
       |(final & cl & dm & d & el & sl & w1 & m' & _ & _ & _ & _ & _ & _ & _
         & _ & E & _ & LG & _)];
    cbv zeta in *.
  - rewrite S. reflexivity.
  - rewrite E. cbn [memory]. rewrite LG.
    unfold has_keyword in K. rewrite K.
    unfold MemoryStore.add, MemoryStore._append_disk, fs_append.
    cbn [disk tick calls writable].
    destruct (writable (disk w1)); reflexivity.
Qed.

(** X21.  Over any number of turns with any generation function, the
    long-term memory of the engine stays as it was as long as no user text
    holds one of the importance keywords. *)
Theorem long_term_grows_only_on_keyword_turns
  (env : Env) (llm : llm_func) (texts : list str) (self : t) (w : World) :
  Forall (fun u => has_keyword u = false) texts ->
  MemoryStore.long_term (memory (fst (run_turns env llm texts (self, w))))
  = MemoryStore.long_term (memory self).
Proof.
  intro F. revert self w.
  induction F as [|u texts K F IH]; intros self w; [reflexivity|].
  cbn [run_turns].
  destruct (generate_reply env u llm (self, w)) as [r [self' w']] eqn:E.
  cbn [snd]. rewrite IH.
  pose proof (turn_keeps_long_term env u llm self w K) as T.
  rewrite E in T. exact T.
Qed.

Lemma long_term_grows_only_on_keyword_turns_witness :
  MemoryStore.long_term
    (memory (fst (run_turns Demo.env Demo.critic_llm
                    [lit "hello"; lit "how are you"] Demo.fresh)))
  = [].
Proof.
  apply (long_term_grows_only_on_keyword_turns Demo.env Demo.critic_llm
           [lit "hello"; lit "how are you"] (fst Demo.fresh) (snd Demo.fresh)).
  repeat constructor.
Defined.
